(** * Swarm Relay: routing hub, client dispatch engine and transports

    A shallow embedding of the TypeScript sources of [@org/swarm-relay]:

    - [lib/types.ts], [lib/errors.ts]: envelopes, connection states, errors;
    - [lib/worker/swarm-relay-worker.ts]: the SharedWorker hub script;
    - [lib/swarm-relay.ts]: the [SwarmRelay] client class;
    - [lib/testing/mock-transport-adapter.ts]: the test-double transport;
    - [lib/transport/shared-worker-transport.ts]: the SharedWorker transport
      with its register/acknowledge handshake.

    JavaScript objects are records, [Map]s and [Set]s are insertion-ordered
    lists (iteration order is observable through the order of deliveries and
    handler calls), exceptions are an explicit completion value, and the
    calls a piece of code makes on its collaborators (logger, callbacks,
    ports) are collected in the order they are made. *)

From Stdlib Require Import ZArith Ascii.
From stdpp Require Import base decidable option list strings gmap pretty.


(** ** JavaScript values shared by every module *)

Module Js.

(** The double quote character, used by the log templates. *)
Definition dq : string := String (Ascii.ascii_of_nat 34) EmptyString.

Definition quoted (s : string) : string := dq +:+ s +:+ dq.

(** Truthiness of a string-valued expression: only the empty string is
    falsy.  An absent ([undefined], [null]) value is falsy as well. *)
Definition truthy (s : string) : bool := bool_decide (s ≠ "").

(** The value an optional string has inside [if (x) { ... }]: the branch
    is taken for a present, non-empty string only. *)
Definition if_truthy (o : option string) : option string :=
  match o with
  | Some s => if truthy s then Some s else None
  | None => None
  end.

(** *** [Map<K, V>]: an insertion-ordered association list.

    [set] on an existing key replaces the value and keeps the key's
    position; on a new key it appends. *)
Section JsMap.
Context {K V : Type} `{EqDecision K}.

Fixpoint map_set (k : K) (v : V) (m : list (K * V)) : list (K * V) :=
  match m with
  | [] => [(k, v)]
  | (k', v') :: m' =>
      if decide (k' = k) then (k, v) :: m' else (k', v') :: map_set k v m'
  end.

Fixpoint map_get (k : K) (m : list (K * V)) : option V :=
  match m with
  | [] => None
  | (k', v') :: m' => if decide (k' = k) then Some v' else map_get k m'
  end.

Definition map_has (k : K) (m : list (K * V)) : bool :=
  bool_decide (is_Some (map_get k m)).

Fixpoint map_delete (k : K) (m : list (K * V)) : list (K * V) :=
  match m with
  | [] => []
  | (k', v') :: m' =>
      if decide (k' = k) then map_delete k m' else (k', v') :: map_delete k m'
  end.

Definition map_keys (m : list (K * V)) : list K := m.*1.
End JsMap.

(** *** [Set<A>]: an insertion-ordered list without repetition. *)
Section JsSet.
Context {A : Type} `{EqDecision A}.

Definition set_add (x : A) (s : list A) : list A :=
  if decide (x ∈ s) then s else s ++ [x].

Fixpoint set_delete (x : A) (s : list A) : list A :=
  match s with
  | [] => []
  | y :: s' => if decide (y = x) then set_delete x s' else y :: set_delete x s'
  end.
End JsSet.

(** No character of the string is the dash. *)
Fixpoint no_dash (s : string) : Prop :=
  match s with
  | EmptyString => True
  | String c s' => c ≠ "-"%char ∧ no_dash s'
  end.

End Js.

(** ** [lib/types.ts] and [lib/errors.ts] *)

Module Types.

Inductive ConnectionState :=
| Disconnected
| Connecting
| Connected
| Error.

#[global] Instance ConnectionState_eq_dec : EqDecision ConnectionState.
Proof. solve_decision. Defined.

(** The payload is opaque to every function below; it is carried as its
    JSON text. *)
Definition Payload := string.

(** [SwarmMessage]: the envelope.  [target] is the optional field. *)
Record SwarmMessage := {
  id : string;
  source : string;
  target : option string;
  event : string;
  payload : Payload;
  timestamp : Z
}.

#[global] Instance SwarmMessage_eq_dec : EqDecision SwarmMessage.
Proof. solve_decision. Defined.

Inductive SwarmRelayErrorCode :=
| ConnectionFailed
| NotConnected
| SendFailed
| TransportError
| InvalidMessage
| WorkerNotSupported.

#[global] Instance SwarmRelayErrorCode_eq_dec : EqDecision SwarmRelayErrorCode.
Proof. solve_decision. Defined.

(** A thrown value: a plain [Error], a [SwarmRelayError] (message, code,
    optional cause) or a value that is not an [Error] at all. *)
#[warnings="-register-all"]
Inductive JsError :=
| PlainError (message : string)
| SwarmRelayError (message : string) (code : SwarmRelayErrorCode)
    (cause : option JsError)
| NotAnError (value : string).

Definition instanceof_SwarmRelayError (e : JsError) : bool :=
  match e with
  | SwarmRelayError _ _ _ => true
  | _ => false
  end.

Definition instanceof_Error (e : JsError) : bool :=
  match e with
  | NotAnError _ => false
  | _ => true
  end.

(** The control messages of the wire protocol, tagged by their [type]
    field. *)
Inductive ControlMessage :=
| SwarmRegister (clientId : string)       (* __swarm_register__ *)
| SwarmRegistered (clientId : string)     (* __swarm_registered__ *)
| SwarmDisconnect                         (* __swarm_disconnect__ *)
| SwarmMessageData (message : SwarmMessage) (* __swarm_message__ *)
| OtherData (type : string).

End Types.

(** ** [lib/worker/swarm-relay-worker.ts]: the hub *)

Module Worker.
Import Js Types.

(** A [MessagePort] is known to the hub by its identity only. *)
Definition MessagePort := nat.

(** One [postMessage] call made by the hub: the port and the data. *)
Definition Post : Type := MessagePort * ControlMessage.

(** The worker's global [ports] map and, for every connection, the
    [clientId] variable of its [handleConnect] closure ([None] is
    [null]). *)
Record Hub := {
  ports : list (string * MessagePort);
  clientId : gmap MessagePort string
}.

Definition initial : Hub := {| ports := []; clientId := ∅ |}.

(** [ports.forEach(forwardBroadcast)] *)
Definition forwardBroadcast (message : SwarmMessage)
    (entry : string * MessagePort) : list Post :=
  let '(id, p) := entry in
  if decide (id ≠ source message) then [(p, SwarmMessageData message)] else [].

(** [port.onmessage = function handleMessage(event)] *)
Definition handleMessage (port : MessagePort) (data : ControlMessage)
    (hub : Hub) : Hub * list Post :=
  match data with
  | SwarmRegister cid =>
      ({| ports := map_set cid port (ports hub);
          clientId := <[port := cid]> (clientId hub) |},
       [(port, SwarmRegistered cid)])
  | SwarmDisconnect =>
      match if_truthy (clientId hub !! port) with
      | Some cid =>
          ({| ports := map_delete cid (ports hub);
              clientId := delete port (clientId hub) |}, [])
      | None => (hub, [])
      end
  | SwarmMessageData message =>
      match if_truthy (target message) with
      | Some target =>
          match map_get target (ports hub) with
          | Some targetPort => (hub, [(targetPort, SwarmMessageData message)])
          | None => (hub, [])
          end
      | None => (hub, flat_map (forwardBroadcast message) (ports hub))
      end
  | _ => (hub, [])
  end.

(** [port.onmessageerror = function handleError()] *)
Definition handleError (port : MessagePort) (hub : Hub) : Hub :=
  match if_truthy (clientId hub !! port) with
  | Some cid =>
      {| ports := map_delete cid (ports hub);
         clientId := delete port (clientId hub) |}
  | None => hub
  end.

(** The events the worker's event loop serves, one at a time. *)
Inductive HubEvent :=
| OnMessage (port : MessagePort) (data : ControlMessage)
| OnMessageError (port : MessagePort).

Definition step (ev : HubEvent) (hub : Hub) : Hub * list Post :=
  match ev with
  | OnMessage port data => handleMessage port data hub
  | OnMessageError port => (handleError port hub, [])
  end.

Fixpoint run (evs : list HubEvent) (hub : Hub) : Hub * list Post :=
  match evs with
  | [] => (hub, [])
  | ev :: evs' =>
      let '(hub1, out1) := step ev hub in
      let '(hub2, out2) := run evs' hub1 in
      (hub2, out1 ++ out2)
  end.

(** The ports that received a post. *)
Definition recipients (out : list Post) : list MessagePort := out.*1.

End Worker.

(** ** Completions, exceptions and recorded calls

    A JavaScript function body is a state transformer that completes
    normally with a value or abruptly with a thrown value.  The state reached
    before a [throw] is kept (nothing is rolled back), and the calls made on
    the outside world up to that point stay recorded. *)

Module Effects.
Import Types.

Inductive Completion (A : Type) :=
| Normal (value : A)
| Throw (error : JsError).
#[global] Arguments Normal {A} value.
#[global] Arguments Throw {A} error.

(** The state of a [Promise<void>]. *)
Inductive Promise :=
| Pending
| Fulfilled
| Rejected (reason : JsError).

Definition JS (O S A : Type) : Type := S → Completion A * S * list O.

Section JS.
Context {O S : Type}.

#[global] Instance JS_ret : MRet (JS O S) :=
  λ A a s, (Normal a, s, []).

#[global] Instance JS_bind : MBind (JS O S) :=
  λ A B f m s,
    match m s with
    | (Normal a, s1, o1) =>
        let '(c, s2, o2) := f a s1 in (c, s2, o1 ++ o2)
    | (Throw e, s1, o1) => (Throw e, s1, o1)
    end.

Definition throw {A} (e : JsError) : JS O S A := λ s, (Throw e, s, []).

(** [try { body } catch (error) { handler(error) }] *)
Definition try_catch {A} (body : JS O S A) (handler : JsError → JS O S A)
    : JS O S A :=
  λ s,
    match body s with
    | (Normal a, s1, o1) => (Normal a, s1, o1)
    | (Throw e, s1, o1) =>
        let '(c, s2, o2) := handler e s1 in (c, s2, o1 ++ o2)
    end.

Definition get : JS O S S := λ s, (Normal s, s, []).
Definition modify (f : S → S) : JS O S unit := λ s, (Normal tt, f s, []).

(** A call on a collaborator, recorded. *)
Definition emit (o : O) : JS O S unit := λ s, (Normal tt, s, [o]).

(** Completion of a call whose outcome is already known. *)
Definition complete {A} (c : Completion A) : JS O S A := λ s, (c, s, []).

(** [for (const x of xs) { body(x) }] over the elements present when the
    loop starts. *)
Fixpoint for_of {A} (xs : list A) (body : A → JS O S unit) : JS O S unit :=
  match xs with
  | [] => mret tt
  | x :: xs' => body x ;; for_of xs' body
  end.
End JS.

Definition completion {O S A} (r : Completion A * S * list O) : Completion A :=
  r.1.1.
Definition final {O S A} (r : Completion A * S * list O) : S := r.1.2.
Definition calls {O S A} (r : Completion A * S * list O) : list O := r.2.

End Effects.

(** ** [lib/swarm-relay.ts]: the client *)

Module Relay.
Import Js Types Effects.

(** Handler functions are compared by reference ([Set] membership), so a
    handler is known by a reference number; what it does when called is
    given separately (see [HandlerBehaviour]). *)
Definition HandlerRef := nat.

(** The two ways the dispatcher calls a subscribed function. *)
Inductive HandlerCall :=
| WildcardArgs (event : string) (payload : Payload) (message : SwarmMessage)
| HandlerArgs (payload : Payload) (message : SwarmMessage).

(** The behaviour of the subscribed functions: each call either returns or
    throws.  Handlers do not call back into the relay they are subscribed
    to. *)
Definition HandlerBehaviour := HandlerRef → HandlerCall → Completion unit.

(** The functions a relay registers on its transport, by reference. *)
Inductive MessageListener :=
| RelayHandleMessage                 (* this.handleMessage *)
| OtherMessageListener (n : nat).
Inductive ErrorListener :=
| RelayHandleError                   (* this.handleError *)
| OtherErrorListener (n : nat).

#[global] Instance MessageListener_eq_dec : EqDecision MessageListener.
Proof. solve_decision. Defined.
#[global] Instance ErrorListener_eq_dec : EqDecision ErrorListener.
Proof. solve_decision. Defined.

(** [TransportAdapter<TEventMap>]: the interface of [lib/types.ts].
    [connect] returns the promise of the call (for a transport that
    settles later the promise is [Pending]); [send] may throw. *)
Class TransportAdapter (T : Type) := {
  transport_connect : string → T → Promise * T;
  transport_disconnect : T → T;
  transport_send : SwarmMessage → T → Completion unit * T;
  transport_onMessage : MessageListener → T → T;
  transport_offMessage : MessageListener → T → T;
  transport_onError : ErrorListener → T → T;
  transport_offError : ErrorListener → T → T;
  transport_state : T → ConnectionState
}.

Inductive LogLevel := debug | info | warn | error.

Inductive LogArg :=
| NoArg
| ErrorArg (e : JsError)
| MessageArg (m : SwarmMessage).

Inductive TransportMethod :=
| Tconnect (clientId : string)
| Tdisconnect
| Tsend (message : SwarmMessage)
| TonMessage (l : MessageListener)
| ToffMessage (l : MessageListener)
| TonError (l : ErrorListener)
| ToffError (l : ErrorListener).

(** What a relay does to the outside world, in the order it does it. *)
Inductive Observation :=
| Logged (level : LogLevel) (text : string) (arg : LogArg)
| StateChanged (state : ConnectionState)     (* options.onStateChange *)
| ErrorReported (e : JsError)                (* options.onError *)
| WildcardCalled (h : HandlerRef) (event : string) (payload : Payload)
    (message : SwarmMessage)
| HandlerCalled (h : HandlerRef) (payload : Payload) (message : SwarmMessage)
| TransportCalled (method : TransportMethod)
| ListenerCalled (n : nat) (message : SwarmMessage).

(** The private fields of a [SwarmRelay] instance.  The two optional
    callbacks are known by whether they were given. *)
Record SwarmRelay (T : Type) := {
  clientId : string;
  transport : T;
  onStateChange : bool;
  onErrorCallback : bool;
  handlers : list (string * list HandlerRef);
  wildcardHandlers : list HandlerRef;
  _state : ConnectionState
}.
#[global] Arguments clientId {T} _.
#[global] Arguments transport {T} _.
#[global] Arguments onStateChange {T} _.
#[global] Arguments onErrorCallback {T} _.
#[global] Arguments handlers {T} _.
#[global] Arguments wildcardHandlers {T} _.
#[global] Arguments _state {T} _.

(** [SwarmRelayOptions] with the transport given. *)
Record SwarmRelayOptions (T : Type) := {
  opt_clientId : string;
  opt_transport : T;
  opt_onStateChange : bool;
  opt_onError : bool
}.
#[global] Arguments opt_clientId {T} _.
#[global] Arguments opt_transport {T} _.
#[global] Arguments opt_onStateChange {T} _.
#[global] Arguments opt_onError {T} _.

(** The readings a [send] or [broadcast] call takes from its environment,
    in evaluation order: [Date.now()] and
    [Math.random().toString(36).slice(2, 11)] inside [generateId()], then
    [Date.now()] for the [timestamp] field. *)
Record Readings := {
  id_now : Z;
  id_random : string;
  timestamp_now : Z
}.

(** [generateId()] *)
Definition generateId (now : Z) (random36 : string) : string :=
  pretty now +:+ "-" +:+ random36.

Section Relay.
Context {T : Type} `{!TransportAdapter T}.

Definition M := JS Observation (SwarmRelay T).

(** [constructor(options)] *)
Definition new (options : SwarmRelayOptions T) : SwarmRelay T :=
  {| clientId := opt_clientId options;
     transport := opt_transport options;
     onStateChange := opt_onStateChange options;
     onErrorCallback := opt_onError options;
     handlers := [];
     wildcardHandlers := [];
     _state := Disconnected |}.

Definition set__state (state : ConnectionState) (r : SwarmRelay T) :=
  {| clientId := clientId r; transport := transport r;
     onStateChange := onStateChange r; onErrorCallback := onErrorCallback r;
     handlers := handlers r; wildcardHandlers := wildcardHandlers r;
     _state := state |}.

Definition set_transport (t : T) (r : SwarmRelay T) :=
  {| clientId := clientId r; transport := t;
     onStateChange := onStateChange r; onErrorCallback := onErrorCallback r;
     handlers := handlers r; wildcardHandlers := wildcardHandlers r;
     _state := _state r |}.

Definition set_handlers (hs : list (string * list HandlerRef))
    (r : SwarmRelay T) :=
  {| clientId := clientId r; transport := transport r;
     onStateChange := onStateChange r; onErrorCallback := onErrorCallback r;
     handlers := hs; wildcardHandlers := wildcardHandlers r;
     _state := _state r |}.

Definition set_wildcardHandlers (ws : list HandlerRef) (r : SwarmRelay T) :=
  {| clientId := clientId r; transport := transport r;
     onStateChange := onStateChange r; onErrorCallback := onErrorCallback r;
     handlers := handlers r; wildcardHandlers := ws;
     _state := _state r |}.

(** [this.logger.<level>(text, arg)] *)
Definition logger (level : LogLevel) (text : string) (arg : LogArg) : M unit :=
  emit (Logged level text arg).

(** Calls on [this.transport], recorded before they are made. *)
Definition on_transport {A} (f : T → Completion A * T) : M A :=
  λ r, let '(c, t) := f (transport r) in (c, set_transport t r, []).

Definition call_transport (method : TransportMethod) (f : T → T) : M unit :=
  emit (TransportCalled method) ;;
  on_transport (λ t, (Normal tt, f t)).

Definition call_transport_send (message : SwarmMessage) : M unit :=
  emit (TransportCalled (Tsend message)) ;;
  on_transport (transport_send message).

Definition call_transport_connect (clientId : string) : M Promise :=
  emit (TransportCalled (Tconnect clientId)) ;;
  on_transport (λ t, let '(p, t') := transport_connect clientId t in
                     (Normal p, t')).

(** [private setState(state)] *)
Definition setState (state : ConnectionState) : M unit :=
  modify (set__state state) ;;
  r ← get ;
  if onStateChange r then emit (StateChanged state) else mret tt.

(** [private assertConnected()] *)
Definition assertConnected : M unit :=
  r ← get ;
  if decide (_state r ≠ Connected) then
    throw (SwarmRelayError "Not connected. Call connect() first."
             NotConnected None)
  else mret tt.

(** *** Lifecycle *)

(** What [connect()] has done when it first gives control back: it has
    returned, or it is suspended on the transport's promise. *)
Inductive Suspension :=
| Returned
| Awaiting (p : Promise).

(** [connect()] up to its [await]. *)
Definition connect_begin : M Suspension :=
  r ← get ;
  if decide (_state r = Connected) then
    logger warn "Already connected" NoArg ;;
    mret Returned
  else
    setState Connecting ;;
    logger info ("Connecting as " +:+ quoted (clientId r) +:+ "…") NoArg ;;
    call_transport (TonMessage RelayHandleMessage)
      (transport_onMessage RelayHandleMessage) ;;
    call_transport (TonError RelayHandleError)
      (transport_onError RelayHandleError) ;;
    p ← call_transport_connect (clientId r) ;
    mret (Awaiting p).

(** [connect()] from its [await] on, once the transport's promise has
    settled: the rest of the [try] block, or the [catch] block. *)
Definition connect_resume (settled : Completion unit) : M unit :=
  r ← get ;
  try_catch
    (complete settled ;;
     setState Connected ;;
     logger info ("Connected as " +:+ quoted (clientId r)) NoArg)
    (λ error,
       setState Error ;;
       let relayError :=
         if instanceof_SwarmRelayError error then error
         else SwarmRelayError "Connection failed" ConnectionFailed
                (if instanceof_Error error then Some error else None) in
       logger Relay.error "Connection failed" (ErrorArg relayError) ;;
       r' ← get ;
       (if onErrorCallback r' then emit (ErrorReported relayError)
        else mret tt) ;;
       throw relayError).

(** [await relay.connect()] over a transport whose promise is settled
    when [connect] returns it.  [None]: the call is still suspended. *)
Definition connect : M (option unit) :=
  s ← connect_begin ;
  match s with
  | Returned => mret (Some tt)
  | Awaiting Fulfilled => connect_resume (Normal tt) ;; mret (Some tt)
  | Awaiting (Rejected reason) => connect_resume (Throw reason) ;; mret (Some tt)
  | Awaiting Pending => mret None
  end.

(** [disconnect()] *)
Definition disconnect : M unit :=
  r ← get ;
  if decide (_state r = Disconnected) then mret tt
  else
    logger info ("Disconnecting " +:+ quoted (clientId r) +:+ "…") NoArg ;;
    call_transport (ToffMessage RelayHandleMessage)
      (transport_offMessage RelayHandleMessage) ;;
    call_transport (ToffError RelayHandleError)
      (transport_offError RelayHandleError) ;;
    call_transport Tdisconnect transport_disconnect ;;
    modify (set_handlers []) ;;
    modify (set_wildcardHandlers []) ;;
    setState Disconnected ;;
    logger info ("Disconnected " +:+ quoted (clientId r)) NoArg.

(** The relay a [disconnect()] leaves behind when it does its work. *)
Definition disconnected_from (r : SwarmRelay T) : SwarmRelay T :=
  {| clientId := clientId r;
     transport :=
       transport_disconnect
         (transport_offError RelayHandleError
            (transport_offMessage RelayHandleMessage (transport r)));
     onStateChange := onStateChange r;
     onErrorCallback := onErrorCallback r;
     handlers := [];
     wildcardHandlers := [];
     _state := Disconnected |}.

(** *** Sending *)

(** The envelope [send] and [broadcast] build: [source] is the relay's own
    id, [id] comes from [generateId()], [timestamp] from [Date.now()]. *)
Definition send_envelope (env : Readings) (target : option string)
    (event : string) (payload : Payload) (r : SwarmRelay T) : SwarmMessage :=
  {| id := generateId (id_now env) (id_random env);
     source := clientId r;
     target := target;
     event := event;
     payload := payload;
     timestamp := timestamp_now env |}.

(** [send(target, event, payload)] *)
Definition send (env : Readings) (target event : string)
    (payload : Payload) : M unit :=
  assertConnected ;;
  r ← get ;
  let message := send_envelope env (Some target) event payload r in
  logger debug ("Sending " +:+ quoted event +:+ " to " +:+ quoted target)
    (MessageArg message) ;;
  call_transport_send message.

(** [broadcast(event, payload)] *)
Definition broadcast (env : Readings) (event : string)
    (payload : Payload) : M unit :=
  assertConnected ;;
  r ← get ;
  let message := send_envelope env None event payload r in
  logger debug ("Broadcasting " +:+ quoted event) (MessageArg message) ;;
  call_transport_send message.

(** *** Subscribing *)

(** [on(event, handler)]; the cleanup function it returns is
    [off event handler]. *)
Definition on (event : string) (handler : HandlerRef) : M unit :=
  r ← get ;
  (if map_has event (handlers r) then mret tt
   else modify (λ r, set_handlers (map_set event [] (handlers r)) r)) ;;
  modify (λ r,
    set_handlers
      (map_set event
         (set_add handler (default [] (map_get event (handlers r))))
         (handlers r)) r) ;;
  logger debug ("Subscribed to " +:+ quoted event) NoArg.

(** [off(event, handler)] *)
Definition off (event : string) (handler : HandlerRef) : M unit :=
  r ← get ;
  match map_get event (handlers r) with
  | Some eventHandlers =>
      let eventHandlers' := set_delete handler eventHandlers in
      modify (set_handlers (map_set event eventHandlers' (handlers r))) ;;
      (if decide (length eventHandlers' = 0) then
         modify (λ r, set_handlers (map_delete event (handlers r)) r)
       else mret tt) ;;
      logger debug ("Unsubscribed from " +:+ quoted event) NoArg
  | None => mret tt
  end.

(** [onAny(handler)]; the cleanup function it returns is
    [offAny handler]. *)
Definition onAny (handler : HandlerRef) : M unit :=
  modify (λ r, set_wildcardHandlers (set_add handler (wildcardHandlers r)) r) ;;
  logger debug "Subscribed to wildcard (all events)" NoArg.

(** [offAny(handler)] *)
Definition offAny (handler : HandlerRef) : M unit :=
  modify (λ r,
    set_wildcardHandlers (set_delete handler (wildcardHandlers r)) r) ;;
  logger debug "Unsubscribed from wildcard (all events)" NoArg.

(** *** Dispatch *)

Section Dispatch.
Variable behaviour : HandlerBehaviour.

(** [handler(message.event, message.payload, message)] *)
Definition call_wildcard (handler : HandlerRef) (message : SwarmMessage)
    : M unit :=
  emit (WildcardCalled handler (event message) (payload message) message) ;;
  complete
    (behaviour handler
       (WildcardArgs (event message) (payload message) message)).

(** [handler(message.payload, message)] *)
Definition call_handler (handler : HandlerRef) (message : SwarmMessage)
    : M unit :=
  emit (HandlerCalled handler (payload message) message) ;;
  complete (behaviour handler (HandlerArgs (payload message) message)).

(** [private handleMessage = (message) => { ... }] *)
Definition handleMessage (message : SwarmMessage) : M unit :=
  logger debug
    ("Received " +:+ quoted (event message) +:+ " from "
       +:+ quoted (source message))
    (MessageArg message) ;;
  (* 1) Wildcard handlers *)
  r ← get ;
  for_of (wildcardHandlers r) (λ handler,
    try_catch (call_wildcard handler message)
      (λ error, logger Relay.error "Wildcard handler threw" (ErrorArg error))) ;;
  (* 2) Event-specific handlers *)
  r ← get ;
  match map_get (event message) (handlers r) with
  | Some eventHandlers =>
      for_of eventHandlers (λ handler,
        try_catch (call_handler handler message)
          (λ error,
             logger Relay.error
               ("Handler for " +:+ quoted (event message) +:+ " threw")
               (ErrorArg error)))
  | None => mret tt
  end.
End Dispatch.

(** *** Reading what a dispatch did *)

(** The handlers subscribed to [event]: [this.handlers.get(event)], the
    empty list when the map has no such key. *)
Definition handlers_for (event : string) (r : SwarmRelay T)
    : list HandlerRef :=
  default [] (map_get event (handlers r)).

(** The handler calls among the recorded calls. *)
Definition is_invocation (o : Observation) : Prop :=
  match o with
  | WildcardCalled _ _ _ _ | HandlerCalled _ _ _ => True
  | _ => False
  end.

#[global] Instance is_invocation_dec o : Decision (is_invocation o).
Proof. destruct o; simpl; apply _. Defined.

Definition invocations (os : list Observation) : list Observation :=
  filter is_invocation os.

(** A call under [try]/[catch]: the call, and the log entry of the
    [catch] block when the call throws. *)
Definition guarded (call : Observation) (outcome : Completion unit)
    (log : JsError → Observation) : list Observation :=
  call :: match outcome with
          | Normal _ => []
          | Throw e => [log e]
          end.

Definition wildcard_trace (behaviour : HandlerBehaviour)
    (message : SwarmMessage) (h : HandlerRef) : list Observation :=
  guarded
    (WildcardCalled h (event message) (payload message) message)
    (behaviour h (WildcardArgs (event message) (payload message) message))
    (λ e, Logged Relay.error "Wildcard handler threw" (ErrorArg e)).

Definition handler_trace (behaviour : HandlerBehaviour)
    (message : SwarmMessage) (h : HandlerRef) : list Observation :=
  guarded
    (HandlerCalled h (payload message) message)
    (behaviour h (HandlerArgs (payload message) message))
    (λ e, Logged Relay.error
            ("Handler for " +:+ quoted (event message) +:+ " threw")
            (ErrorArg e)).

(** The states passed to [options.onStateChange], in call order. *)
Definition state_changes (os : list Observation) : list ConnectionState :=
  omap (λ o, match o with StateChanged s => Some s | _ => None end) os.

(** The calls made on the transport, in call order. *)
Definition transport_calls (os : list Observation) : list TransportMethod :=
  omap (λ o, match o with TransportCalled m => Some m | _ => None end) os.

(** [private handleError = (error) => { ... }] *)
Definition handleError (err : JsError) : M unit :=
  logger Relay.error "Transport error" (ErrorArg err) ;;
  r ← get ;
  if onErrorCallback r then emit (ErrorReported err) else mret tt.

End Relay.

End Relay.

(** ** [lib/testing/mock-transport-adapter.ts]: the test double *)

Module Mock.
Import Js Types Effects Relay.

Record MockTransportAdapter := {
  messageHandlers : list MessageListener;
  errorHandlers : list ErrorListener;
  _state : ConnectionState;
  _clientId : option string;
  sentMessages : list SwarmMessage;
  connectCalled : bool;
  disconnectCalled : bool;
  connectError : option JsError;
  sendError : option JsError
}.

(** [new MockTransportAdapter()] *)
Definition new : MockTransportAdapter :=
  {| messageHandlers := []; errorHandlers := []; _state := Disconnected;
     _clientId := None; sentMessages := []; connectCalled := false;
     disconnectCalled := false; connectError := None; sendError := None |}.

(** [async connect(clientId)]: the body has no [await], so the promise is
    settled when the call returns. *)
Definition connect (clientId : string) (t : MockTransportAdapter)
    : Promise * MockTransportAdapter :=
  match connectError t with
  | Some e =>
      (Rejected e,
       {| messageHandlers := messageHandlers t; errorHandlers := errorHandlers t;
          _state := Error; _clientId := Some clientId;
          sentMessages := sentMessages t; connectCalled := true;
          disconnectCalled := disconnectCalled t;
          connectError := connectError t; sendError := sendError t |})
  | None =>
      (Fulfilled,
       {| messageHandlers := messageHandlers t; errorHandlers := errorHandlers t;
          _state := Connected; _clientId := Some clientId;
          sentMessages := sentMessages t; connectCalled := true;
          disconnectCalled := disconnectCalled t;
          connectError := connectError t; sendError := sendError t |})
  end.

(** [disconnect()] *)
Definition disconnect (t : MockTransportAdapter) : MockTransportAdapter :=
  {| messageHandlers := []; errorHandlers := [];
     _state := Disconnected; _clientId := None;
     sentMessages := sentMessages t; connectCalled := connectCalled t;
     disconnectCalled := true;
     connectError := connectError t; sendError := sendError t |}.

Definition set_sentMessages (ms : list SwarmMessage)
    (t : MockTransportAdapter) : MockTransportAdapter :=
  {| messageHandlers := messageHandlers t; errorHandlers := errorHandlers t;
     _state := _state t; _clientId := _clientId t;
     sentMessages := ms; connectCalled := connectCalled t;
     disconnectCalled := disconnectCalled t;
     connectError := connectError t; sendError := sendError t |}.

(** [send(message)] *)
Definition send (message : SwarmMessage) (t : MockTransportAdapter)
    : Completion unit * MockTransportAdapter :=
  match sendError t with
  | Some e => (Throw e, t)
  | None => (Normal tt, set_sentMessages (sentMessages t ++ [message]) t)
  end.

Definition set_messageHandlers (hs : list MessageListener)
    (t : MockTransportAdapter) : MockTransportAdapter :=
  {| messageHandlers := hs; errorHandlers := errorHandlers t;
     _state := _state t; _clientId := _clientId t;
     sentMessages := sentMessages t; connectCalled := connectCalled t;
     disconnectCalled := disconnectCalled t;
     connectError := connectError t; sendError := sendError t |}.

Definition set_errorHandlers (hs : list ErrorListener)
    (t : MockTransportAdapter) : MockTransportAdapter :=
  {| messageHandlers := messageHandlers t; errorHandlers := hs;
     _state := _state t; _clientId := _clientId t;
     sentMessages := sentMessages t; connectCalled := connectCalled t;
     disconnectCalled := disconnectCalled t;
     connectError := connectError t; sendError := sendError t |}.

(** The test's assignments [transport.connectError = e] and
    [transport.sendError = e]. *)
Definition set_connectError (e : option JsError) (t : MockTransportAdapter)
    : MockTransportAdapter :=
  {| messageHandlers := messageHandlers t; errorHandlers := errorHandlers t;
     _state := _state t; _clientId := _clientId t;
     sentMessages := sentMessages t; connectCalled := connectCalled t;
     disconnectCalled := disconnectCalled t;
     connectError := e; sendError := sendError t |}.

Definition set_sendError (e : option JsError) (t : MockTransportAdapter)
    : MockTransportAdapter :=
  {| messageHandlers := messageHandlers t; errorHandlers := errorHandlers t;
     _state := _state t; _clientId := _clientId t;
     sentMessages := sentMessages t; connectCalled := connectCalled t;
     disconnectCalled := disconnectCalled t;
     connectError := connectError t; sendError := e |}.

Definition onMessage (handler : MessageListener) (t : MockTransportAdapter) :=
  set_messageHandlers (set_add handler (messageHandlers t)) t.
Definition offMessage (handler : MessageListener) (t : MockTransportAdapter) :=
  set_messageHandlers (set_delete handler (messageHandlers t)) t.
Definition onError (handler : ErrorListener) (t : MockTransportAdapter) :=
  set_errorHandlers (set_add handler (errorHandlers t)) t.
Definition offError (handler : ErrorListener) (t : MockTransportAdapter) :=
  set_errorHandlers (set_delete handler (errorHandlers t)) t.

(** [reset()] *)
Definition reset (t : MockTransportAdapter) : MockTransportAdapter := new.

#[global] Instance MockTransportAdapter_adapter
    : TransportAdapter MockTransportAdapter :=
  {| transport_connect := connect;
     transport_disconnect := disconnect;
     transport_send := send;
     transport_onMessage := onMessage;
     transport_offMessage := offMessage;
     transport_onError := onError;
     transport_offError := offError;
     transport_state := _state |}.

(** Sending a list of messages one after the other, stopping at the first
    throw as a sequence of statements does. *)
Fixpoint send_all (messages : list SwarmMessage) (t : MockTransportAdapter)
    : Completion unit * MockTransportAdapter :=
  match messages with
  | [] => (Normal tt, t)
  | m :: ms =>
      match send m t with
      | (Normal _, t') => send_all ms t'
      | (Throw e, t') => (Throw e, t')
      end
  end.

(** *** Test helpers, run against the relay that owns the transport *)

Section Simulate.
Variable behaviour : HandlerBehaviour.

(** [simulateMessage(message)] *)
Definition simulateMessage (message : SwarmMessage)
    : JS Observation (SwarmRelay MockTransportAdapter) unit :=
  r ← get ;
  for_of (messageHandlers (transport r)) (λ handler,
    match handler with
    | RelayHandleMessage => Relay.handleMessage behaviour message
    | OtherMessageListener n => emit (ListenerCalled n message)
    end).
End Simulate.

(** [simulateError(error)] *)
Definition simulateError (err : JsError)
    : JS Observation (SwarmRelay MockTransportAdapter) unit :=
  r ← get ;
  for_of (errorHandlers (transport r)) (λ handler,
    match handler with
    | RelayHandleError => Relay.handleError err
    | OtherErrorListener n => mret tt
    end).

End Mock.

(** ** [lib/transport/shared-worker-transport.ts] *)

Module SharedWorker.
Import Js Types Effects Relay.

(** [setTimeout] handles: armed until cleared or fired. *)
Inductive Timer :=
| Armed
| Cleared
| Fired.

(** What one call of [handshake(clientId)] allocates: its [timeout]
    (with the delay it was armed for) and its promise.  The closures the
    call installs ([handshakeAbort], [port.onmessage], [worker.onerror])
    refer to both through the index of this record. *)
Record Handshake := {
  timeout : Timer;
  delay : Z;
  promise : Promise
}.

Inductive PortOnMessage :=
| onmessage_null
| onmessage_handshake (h : nat)       (* the arrow function of [handshake] *)
| onmessage_handlePortMessage.        (* [this.handlePortMessage] *)

Record MessagePort := {
  onmessage : PortOnMessage;
  onmessageerror : bool;
  started : bool;
  closed : bool;
  posted : list ControlMessage        (* [postMessage] calls, in order *)
}.

Record SharedWorkerObject := {
  worker_url : string;
  worker_port : nat;
  onerror : option nat                (* the arrow function of [handshake] *)
}.

Record SharedWorkerTransport := {
  worker : option nat;
  port : option nat;
  messageHandlers : list MessageListener;
  errorHandlers : list ErrorListener;
  _state : ConnectionState;
  handshakeAbort : option nat;
  clientId : string
}.

(** The transport instance together with the objects it shares with the
    browser: the module-level [sharedBlobUrl], whether the global
    [SharedWorker] exists, and the handshakes, ports and workers allocated
    so far (an object is known by its position). *)
Record World := {
  this : SharedWorkerTransport;
  sharedBlobUrl : option string;
  SharedWorker_defined : bool;
  handshakes : list Handshake;
  message_ports : list MessagePort;
  workers : list SharedWorkerObject
}.

(** What the transport tells its listeners. *)
Inductive Observation :=
| MessageDelivered (l : MessageListener) (message : SwarmMessage)
| ErrorDelivered (l : ErrorListener) (e : JsError).

Definition M := JS Observation World.

(** [new SharedWorkerTransport(clientId)] in a fresh page. *)
Definition new_transport (clientId : string) : SharedWorkerTransport :=
  {| worker := None; port := None; messageHandlers := []; errorHandlers := [];
     _state := Disconnected; handshakeAbort := None; clientId := clientId |}.

Definition new (clientId : string) (supported : bool) : World :=
  {| this := new_transport clientId; sharedBlobUrl := None;
     SharedWorker_defined := supported; handshakes := [];
     message_ports := []; workers := [] |}.

(** *** Field updates *)

Definition with_this (f : SharedWorkerTransport → SharedWorkerTransport)
    (w : World) : World :=
  {| this := f (this w); sharedBlobUrl := sharedBlobUrl w;
     SharedWorker_defined := SharedWorker_defined w;
     handshakes := handshakes w; message_ports := message_ports w;
     workers := workers w |}.

Definition with_handshakes (f : list Handshake → list Handshake)
    (w : World) : World :=
  {| this := this w; sharedBlobUrl := sharedBlobUrl w;
     SharedWorker_defined := SharedWorker_defined w;
     handshakes := f (handshakes w); message_ports := message_ports w;
     workers := workers w |}.

Definition with_ports (f : list MessagePort → list MessagePort)
    (w : World) : World :=
  {| this := this w; sharedBlobUrl := sharedBlobUrl w;
     SharedWorker_defined := SharedWorker_defined w;
     handshakes := handshakes w; message_ports := f (message_ports w);
     workers := workers w |}.

Definition with_workers (f : list SharedWorkerObject → list SharedWorkerObject)
    (w : World) : World :=
  {| this := this w; sharedBlobUrl := sharedBlobUrl w;
     SharedWorker_defined := SharedWorker_defined w;
     handshakes := handshakes w; message_ports := message_ports w;
     workers := f (workers w) |}.

Definition with_sharedBlobUrl (u : option string) (w : World) : World :=
  {| this := this w; sharedBlobUrl := u;
     SharedWorker_defined := SharedWorker_defined w;
     handshakes := handshakes w; message_ports := message_ports w;
     workers := workers w |}.

Definition set_worker (x : option nat) (t : SharedWorkerTransport) :=
  {| worker := x; port := port t; messageHandlers := messageHandlers t;
     errorHandlers := errorHandlers t; _state := _state t;
     handshakeAbort := handshakeAbort t; clientId := clientId t |}.
Definition set_port (x : option nat) (t : SharedWorkerTransport) :=
  {| worker := worker t; port := x; messageHandlers := messageHandlers t;
     errorHandlers := errorHandlers t; _state := _state t;
     handshakeAbort := handshakeAbort t; clientId := clientId t |}.
Definition set_messageHandlers (x : list MessageListener)
    (t : SharedWorkerTransport) :=
  {| worker := worker t; port := port t; messageHandlers := x;
     errorHandlers := errorHandlers t; _state := _state t;
     handshakeAbort := handshakeAbort t; clientId := clientId t |}.
Definition set_errorHandlers (x : list ErrorListener)
    (t : SharedWorkerTransport) :=
  {| worker := worker t; port := port t; messageHandlers := messageHandlers t;
     errorHandlers := x; _state := _state t;
     handshakeAbort := handshakeAbort t; clientId := clientId t |}.
Definition set__state (x : ConnectionState) (t : SharedWorkerTransport) :=
  {| worker := worker t; port := port t; messageHandlers := messageHandlers t;
     errorHandlers := errorHandlers t; _state := x;
     handshakeAbort := handshakeAbort t; clientId := clientId t |}.
Definition set_handshakeAbort (x : option nat) (t : SharedWorkerTransport) :=
  {| worker := worker t; port := port t; messageHandlers := messageHandlers t;
     errorHandlers := errorHandlers t; _state := _state t;
     handshakeAbort := x; clientId := clientId t |}.

(** *** Timers and promises *)

(** [clearTimeout(timeout)]: an armed timer is cancelled; a timer that
    fired or was cleared stays as it is. *)
Definition clearTimeout_ (hs : Handshake) : Handshake :=
  {| timeout := match timeout hs with Armed => Cleared | t => t end;
     delay := delay hs; promise := promise hs |}.

(** [resolve()] and [reject(reason)]: only a pending promise settles. *)
Definition settle (p : Promise) (hs : Handshake) : Handshake :=
  {| timeout := timeout hs; delay := delay hs;
     promise := match promise hs with Pending => p | settled => settled end |}.

Definition fire (hs : Handshake) : Handshake :=
  {| timeout := Fired; delay := delay hs; promise := promise hs |}.

Definition clearTimeout (h : nat) : M unit :=
  modify (with_handshakes (alter clearTimeout_ h)).
Definition resolve (h : nat) : M unit :=
  modify (with_handshakes (alter (settle Fulfilled) h)).
Definition reject (h : nat) (reason : JsError) : M unit :=
  modify (with_handshakes (alter (settle (Rejected reason)) h)).

(** *** Ports *)

Definition set_onmessage (f : PortOnMessage) (p : MessagePort) :=
  {| onmessage := f; onmessageerror := onmessageerror p;
     started := started p; closed := closed p; posted := posted p |}.
Definition set_onmessageerror (p : MessagePort) :=
  {| onmessage := onmessage p; onmessageerror := true;
     started := started p; closed := closed p; posted := posted p |}.
Definition start (p : MessagePort) :=
  {| onmessage := onmessage p; onmessageerror := onmessageerror p;
     started := true; closed := closed p; posted := posted p |}.
Definition close (p : MessagePort) :=
  {| onmessage := onmessage p; onmessageerror := onmessageerror p;
     started := started p; closed := true; posted := posted p |}.
Definition postMessage (data : ControlMessage) (p : MessagePort) :=
  {| onmessage := onmessage p; onmessageerror := onmessageerror p;
     started := started p; closed := closed p;
     posted := posted p ++ [data] |}.

Definition set_onerror (h : nat) (wk : SharedWorkerObject) :=
  {| worker_url := worker_url wk; worker_port := worker_port wk;
     onerror := Some h |}.

(** A property access through [this.port!] or [this.worker!]: a
    [TypeError] when the field is [null]. *)
Definition TypeError : JsError :=
  PlainError "TypeError: Cannot read properties of null".

Definition this_port : M nat :=
  w ← get ;
  match port (this w) with
  | Some p => mret p
  | None => throw TypeError
  end.

Definition this_worker : M nat :=
  w ← get ;
  match worker (this w) with
  | Some k => mret k
  | None => throw TypeError
  end.

(** *** The class *)

(** [getOrCreateBlobUrl()] *)
Definition getOrCreateBlobUrl : M string :=
  w ← get ;
  match if_truthy (sharedBlobUrl w) with
  | Some url => mret url
  | None =>
      let url := "blob:swarm-relay-hub" in
      modify (with_sharedBlobUrl (Some url)) ;;
      mret url
  end.

(** [private cleanup()] *)
Definition cleanup : M unit :=
  modify (with_this (set_port None)) ;;
  modify (with_this (set_worker None)) ;;
  modify (with_this (set_messageHandlers [])) ;;
  modify (with_this (set_errorHandlers [])).

(** The executor of [handshake(clientId)], which runs inside the call;
    the value is the index of the handshake it started. *)
Definition handshake (clientId : string) : M nat :=
  w ← get ;
  let h := length (handshakes w) in
  (* const timeout = setTimeout(..., 5_000) *)
  modify (with_handshakes
            (λ hs, hs ++ [{| timeout := Armed; delay := 5000%Z; promise := Pending |}])) ;;
  modify (with_this (set_handshakeAbort (Some h))) ;;
  p ← this_port ;
  modify (with_ports (alter (set_onmessage (onmessage_handshake h)) p)) ;;
  p ← this_port ;
  modify (with_ports (alter set_onmessageerror p)) ;;
  k ← this_worker ;
  modify (with_workers (alter (set_onerror h) k)) ;;
  p ← this_port ;
  modify (with_ports (alter start p)) ;;
  p ← this_port ;
  modify (with_ports (alter (postMessage (SwarmRegister clientId)) p)) ;;
  mret h.

(** How a [connect(clientId)] call that has not thrown stands when it
    gives control back: it has returned (its promise is fulfilled), or it
    is suspended on the promise of handshake [h].  A throw inside the
    [async] body is the rejection of the call's promise. *)
Inductive ConnectCall :=
| Resolved
| Handshaking (h : nat).

(** The [catch] block of [connect]. *)
Definition connect_catch {A} (err : JsError) : M A :=
  modify (with_this (set__state Error)) ;;
  cleanup ;;
  if instanceof_SwarmRelayError err then throw err
  else throw (SwarmRelayError "Failed to connect to SharedWorker"
                ConnectionFailed
                (if instanceof_Error err then Some err else None)).

(** [connect(clientId)] up to its [await]. *)
Definition connect_begin (clientId : string) : M ConnectCall :=
  w ← get ;
  if decide (_state (this w) = Connected) then mret Resolved
  else if negb (SharedWorker_defined w) then
    throw (SwarmRelayError
             ("SharedWorker is not supported in this environment. " +:+
              "Consider using BroadcastChannelTransport as a fallback.")
             WorkerNotSupported None)
  else
    modify (with_this (set__state Connecting)) ;;
    try_catch
      (blobUrl ← getOrCreateBlobUrl ;
       w ← get ;
       let k := length (workers w) in
       let p := length (message_ports w) in
       (* new SharedWorker(blobUrl, ...) and its port *)
       modify (with_ports (λ ps, ps ++
         [{| onmessage := onmessage_null; onmessageerror := false;
             started := false; closed := false; posted := [] |}])) ;;
       modify (with_workers (λ ks, ks ++
         [{| worker_url := blobUrl; worker_port := p; onerror := None |}])) ;;
       modify (with_this (set_worker (Some k))) ;;
       modify (with_this (set_port (Some p))) ;;
       h ← handshake clientId ;
       mret (Handshaking h))
      connect_catch.

(** [connect(clientId)] from its [await] on, run once the promise of
    handshake [h] has settled ([None] while it is pending): the rest of the
    [try] block or the [catch] block. *)
Definition connect_resume (h : nat) : M (option unit) :=
  w ← get ;
  match promise <$> handshakes w !! h with
  | Some Fulfilled =>
      modify (with_this (set__state Connected)) ;;
      mret (Some tt)
  | Some (Rejected reason) => connect_catch reason
  | _ => mret None
  end.

(** The error a pending [connect()] is rejected with when [disconnect()]
    aborts its handshake. *)
Definition ConnectionAborted : JsError :=
  SwarmRelayError "Connection aborted" ConnectionFailed None.

(** The closure stored in [this.handshakeAbort]. *)
Definition handshakeAbort_call (h : nat) : M unit :=
  clearTimeout h ;;
  reject h ConnectionAborted.

(** [disconnect()] *)
Definition disconnect : M unit :=
  w ← get ;
  match handshakeAbort (this w) with
  | Some h =>
      handshakeAbort_call h ;;
      modify (with_this (set_handshakeAbort None))
  | None => mret tt
  end ;;
  w ← get ;
  match port (this w) with
  | Some p =>
      modify (with_ports (alter (postMessage SwarmDisconnect) p)) ;;
      modify (with_ports (alter close p))
  | None => mret tt
  end ;;
  cleanup ;;
  modify (with_this (set__state Disconnected)).

(** [send(message)] *)
Definition send (message : SwarmMessage) : M unit :=
  w ← get ;
  match port (this w) with
  | Some p =>
      if decide (_state (this w) ≠ Connected) then
        throw (SwarmRelayError "Cannot send message: not connected"
                 NotConnected None)
      else
        modify (with_ports (alter (postMessage (SwarmMessageData message)) p))
  | None =>
      throw (SwarmRelayError "Cannot send message: not connected"
               NotConnected None)
  end.

Definition onMessage (handler : MessageListener) : M unit :=
  modify (with_this (λ t,
    set_messageHandlers (set_add handler (messageHandlers t)) t)).
Definition offMessage (handler : MessageListener) : M unit :=
  modify (with_this (λ t,
    set_messageHandlers (set_delete handler (messageHandlers t)) t)).
Definition onError (handler : ErrorListener) : M unit :=
  modify (with_this (λ t,
    set_errorHandlers (set_add handler (errorHandlers t)) t)).
Definition offError (handler : ErrorListener) : M unit :=
  modify (with_this (λ t,
    set_errorHandlers (set_delete handler (errorHandlers t)) t)).

(** [private handlePortMessage = (event) => { ... }] *)
Definition handlePortMessage (data : ControlMessage) : M unit :=
  match data with
  | SwarmMessageData message =>
      w ← get ;
      for_of (messageHandlers (this w)) (λ handler,
        emit (MessageDelivered handler message))
  | _ => mret tt
  end.

(** [private emitError(error)] *)
Definition emitError (err : JsError) : M unit :=
  w ← get ;
  for_of (errorHandlers (this w)) (λ handler, emit (ErrorDelivered handler err)).

(** *** The callbacks the browser runs *)

(** The [setTimeout] callback of handshake [h]; the browser runs it only
    for a timer that is still armed. *)
Definition timeout_callback (h : nat) : M unit :=
  w ← get ;
  match timeout <$> handshakes w !! h with
  | Some Armed =>
      modify (with_handshakes (alter fire h)) ;;
      modify (with_this (set_handshakeAbort None)) ;;
      reject h (SwarmRelayError "SharedWorker registration timed out"
                  ConnectionFailed None)
  | _ => mret tt
  end.

(** The [port.onmessage] arrow function installed by handshake [h]. *)
Definition handshake_onmessage (h : nat) (data : ControlMessage) : M unit :=
  match data with
  | SwarmRegistered _ =>
      clearTimeout h ;;
      modify (with_this (set_handshakeAbort None)) ;;
      p ← this_port ;
      modify (with_ports (alter (set_onmessage onmessage_handlePortMessage) p)) ;;
      resolve h
  | _ => mret tt
  end.

(** A message event on port [p]: whatever [p.onmessage] holds is called.
    A closed port gets no event. *)
Definition port_message (p : nat) (data : ControlMessage) : M unit :=
  w ← get ;
  match message_ports w !! p with
  | Some q =>
      if closed q then mret tt
      else
        match onmessage q with
        | onmessage_handshake h => handshake_onmessage h data
        | onmessage_handlePortMessage => handlePortMessage data
        | onmessage_null => mret tt
        end
  | None => mret tt
  end.

(** A [messageerror] event on port [p]. *)
Definition port_messageerror (p : nat) : M unit :=
  w ← get ;
  match onmessageerror <$> message_ports w !! p with
  | Some true =>
      emitError (SwarmRelayError "Message deserialization error"
                   TransportError None)
  | _ => mret tt
  end.

(** An [error] event on worker [k], with the event's [message] if any. *)
Definition worker_error (k : nat) (message : option string) : M unit :=
  w ← get ;
  match workers w !! k ≫= onerror with
  | Some h =>
      clearTimeout h ;;
      modify (with_this (set_handshakeAbort None)) ;;
      modify (with_this (set__state Error)) ;;
      reject h (SwarmRelayError
                  ("SharedWorker error: " +:+ default "unknown" message)
                  TransportError None)
  | None => mret tt
  end.

(** Everything that can happen to a transport, one job of the event loop
    at a time. *)
Inductive Job :=
| Call_connect (clientId : string)
| Resume_connect (h : nat)
| Call_disconnect
| Call_send (message : SwarmMessage)
| Timeout_elapsed (h : nat)
| Port_message (p : nat) (data : ControlMessage)
| Port_messageerror (p : nat)
| Worker_error (k : nat) (message : option string).

Definition job (j : Job) (w : World) : World :=
  match j with
  | Call_connect clientId => final (connect_begin clientId w)
  | Resume_connect h => final (connect_resume h w)
  | Call_disconnect => final (disconnect w)
  | Call_send message => final (send message w)
  | Timeout_elapsed h => final (timeout_callback h w)
  | Port_message p data => final (port_message p data w)
  | Port_messageerror p => final (port_messageerror p w)
  | Worker_error k message => final (worker_error k message w)
  end.

Definition jobs (js : list Job) (w : World) : World :=
  foldl (λ w j, job j w) w js.

(** Handshake [h] is outstanding: its promise has not settled. *)
Definition outstanding (h : nat) (w : World) : Prop :=
  promise <$> handshakes w !! h = Some Pending.

(** The abort closure, when installed, belongs to a handshake whose timer
    is armed and whose promise is pending. *)
Definition abort_hook_live (w : World) : Prop :=
  ∀ h, handshakeAbort (this w) = Some h →
       ∃ hs, handshakes w !! h = Some hs
             ∧ timeout hs = Armed ∧ promise hs = Pending.

(** What one job can do to the abort closure and the handshakes. *)
Inductive hook_step (w w' : World) : Prop :=
| hook_dropped :
    handshakeAbort (this w') = None → hook_step w w'
| hook_kept :
    handshakeAbort (this w') = handshakeAbort (this w) →
    handshakes w' = handshakes w → hook_step w w'
| hook_installed hs :
    handshakes w' = handshakes w ++ [hs] →
    timeout hs = Armed → promise hs = Pending →
    handshakeAbort (this w') = Some (length (handshakes w)) →
    hook_step w w'.

End SharedWorker.

(** ** [lib/transport/broadcast-channel-transport.ts] *)

Module BroadcastChannel.
Import Js Types Effects Relay.

(** The private fields of a [BroadcastChannelTransport].  The channel
    object is known by the name it was opened with ([None] is [null]). *)
Record BroadcastChannelTransport := {
  channel : option string;
  clientId : option string;
  messageHandlers : list MessageListener;
  errorHandlers : list ErrorListener;
  _state : ConnectionState;
  channelName : string
}.

(** What the page offers: whether the global [BroadcastChannel] exists,
    and the error its constructor throws, if it throws. *)
Record Browser := {
  BroadcastChannel_defined : bool;
  constructor_throws : option JsError
}.

(** What the transport does to its channel and tells its listeners. *)
Inductive Observation :=
| ChannelOpened (name : string)
| ChannelClosed (name : string)
| ChannelPosted (name : string) (data : ControlMessage)
| MessageDelivered (l : MessageListener) (message : SwarmMessage)
| ErrorDelivered (l : ErrorListener) (e : JsError).

Definition M := JS Observation BroadcastChannelTransport.

(** [constructor(options = {})] with [options.channelName] given or not. *)
Definition new (channelName : option string) : BroadcastChannelTransport :=
  {| channel := None; clientId := None; messageHandlers := [];
     errorHandlers := []; _state := Disconnected;
     channelName := default "swarm-relay" channelName |}.

Definition set_channel (x : option string) (t : BroadcastChannelTransport) :=
  {| channel := x; clientId := clientId t;
     messageHandlers := messageHandlers t; errorHandlers := errorHandlers t;
     _state := _state t; channelName := channelName t |}.
Definition set_clientId (x : option string) (t : BroadcastChannelTransport) :=
  {| channel := channel t; clientId := x;
     messageHandlers := messageHandlers t; errorHandlers := errorHandlers t;
     _state := _state t; channelName := channelName t |}.
Definition set_messageHandlers (x : list MessageListener)
    (t : BroadcastChannelTransport) :=
  {| channel := channel t; clientId := clientId t;
     messageHandlers := x; errorHandlers := errorHandlers t;
     _state := _state t; channelName := channelName t |}.
Definition set_errorHandlers (x : list ErrorListener)
    (t : BroadcastChannelTransport) :=
  {| channel := channel t; clientId := clientId t;
     messageHandlers := messageHandlers t; errorHandlers := x;
     _state := _state t; channelName := channelName t |}.
Definition set__state (x : ConnectionState) (t : BroadcastChannelTransport) :=
  {| channel := channel t; clientId := clientId t;
     messageHandlers := messageHandlers t; errorHandlers := errorHandlers t;
     _state := x; channelName := channelName t |}.

(** [async connect(clientId)]: the body has no [await]; a throw is the
    rejection of the returned promise. *)
Definition connect (browser : Browser) (id : string) : M unit :=
  t ← get ;
  if decide (_state t = Connected) then mret tt
  else if negb (BroadcastChannel_defined browser) then
    throw (SwarmRelayError
             "BroadcastChannel is not supported in this environment."
             WorkerNotSupported None)
  else
    modify (set__state Connecting) ;;
    modify (set_clientId (Some id)) ;;
    try_catch
      (match constructor_throws browser with
       | Some e => throw e
       | None =>
           emit (ChannelOpened (channelName t)) ;;
           modify (set_channel (Some (channelName t)))
       end ;;
       modify (set__state Connected))
      (λ err,
         modify (set__state Error) ;;
         throw (SwarmRelayError "Failed to create BroadcastChannel"
                  ConnectionFailed
                  (if instanceof_Error err then Some err else None))).

(** [disconnect()] *)
Definition disconnect : M unit :=
  t ← get ;
  match channel t with
  | Some name =>
      emit (ChannelClosed name) ;;
      modify (set_channel None)
  | None => mret tt
  end ;;
  modify (set_clientId None) ;;
  modify (set_messageHandlers []) ;;
  modify (set_errorHandlers []) ;;
  modify (set__state Disconnected).

(** [send(message)] *)
Definition send (message : SwarmMessage) : M unit :=
  t ← get ;
  match channel t with
  | Some name =>
      if decide (_state t ≠ Connected) then
        throw (SwarmRelayError "Cannot send message: not connected"
                 NotConnected None)
      else emit (ChannelPosted name (SwarmMessageData message))
  | None =>
      throw (SwarmRelayError "Cannot send message: not connected"
               NotConnected None)
  end.

Definition onMessage (handler : MessageListener) : M unit :=
  modify (λ t, set_messageHandlers (set_add handler (messageHandlers t)) t).
Definition offMessage (handler : MessageListener) : M unit :=
  modify (λ t, set_messageHandlers (set_delete handler (messageHandlers t)) t).
Definition onError (handler : ErrorListener) : M unit :=
  modify (λ t, set_errorHandlers (set_add handler (errorHandlers t)) t).
Definition offError (handler : ErrorListener) : M unit :=
  modify (λ t, set_errorHandlers (set_delete handler (errorHandlers t)) t).

(** [private handleMessage = (event) => { ... }] *)
Definition handleMessage (data : ControlMessage) : M unit :=
  match data with
  | SwarmMessageData message =>
      t ← get ;
      (* filter out messages originating from this client *)
      if decide (Some (source message) = clientId t) then mret tt
      else
        (* a targeted message is delivered only to its target *)
        match if_truthy (target message) with
        | Some target =>
            if decide (Some target ≠ clientId t) then mret tt
            else
              for_of (messageHandlers t) (λ handler,
                emit (MessageDelivered handler message))
        | None =>
            for_of (messageHandlers t) (λ handler,
              emit (MessageDelivered handler message))
        end
  | _ => mret tt
  end.

(** [private emitError(error)] *)
Definition emitError (err : JsError) : M unit :=
  t ← get ;
  for_of (errorHandlers t) (λ handler, emit (ErrorDelivered handler err)).

(** A message event on the channel: [channel.onmessage] runs while the
    transport holds an open channel. *)
Definition channel_message (data : ControlMessage) : M unit :=
  t ← get ;
  match channel t with
  | Some _ => handleMessage data
  | None => mret tt
  end.

(** A [messageerror] event on the channel. *)
Definition channel_messageerror : M unit :=
  t ← get ;
  match channel t with
  | Some _ =>
      emitError (SwarmRelayError "Message deserialization error"
                   TransportError None)
  | None => mret tt
  end.

(** Everything that can happen to a transport, one call or event at a
    time. *)
Inductive Job :=
| Call_connect (browser : Browser) (id : string)
| Call_disconnect
| Call_send (message : SwarmMessage)
| Call_onMessage (handler : MessageListener)
| Call_offMessage (handler : MessageListener)
| Call_onError (handler : ErrorListener)
| Call_offError (handler : ErrorListener)
| Channel_message (data : ControlMessage)
| Channel_messageerror.

Definition job (j : Job) : M unit :=
  match j with
  | Call_connect browser id => connect browser id
  | Call_disconnect => disconnect
  | Call_send message => send message
  | Call_onMessage handler => onMessage handler
  | Call_offMessage handler => offMessage handler
  | Call_onError handler => onError handler
  | Call_offError handler => offError handler
  | Channel_message data => channel_message data
  | Channel_messageerror => channel_messageerror
  end.

(** The transport after the jobs, and everything they did, in order. *)
Definition jobs (js : list Job) (t : BroadcastChannelTransport)
    : BroadcastChannelTransport * list Observation :=
  foldl (λ r j, (final (job j r.1), r.2 ++ calls (job j r.1))) (t, []) js.

(** How many channels the observations open and close. *)
Definition is_ChannelOpened (o : Observation) : bool :=
  match o with ChannelOpened _ => true | _ => false end.
Definition is_ChannelClosed (o : Observation) : bool :=
  match o with ChannelClosed _ => true | _ => false end.
Definition opened (os : list Observation) : nat :=
  length (List.filter is_ChannelOpened os).
Definition closed (os : list Observation) : nat :=
  length (List.filter is_ChannelClosed os).

(** The number of channels the transport holds: one or none. *)
Definition held (t : BroadcastChannelTransport) : nat :=
  match channel t with Some _ => 1 | None => 0 end.

End BroadcastChannel.

(** ** Sequences of calls on a relay *)

Module Usage.
Import Js Types Effects Relay.

(** The error [connect()] rejects with when the transport's promise was
    rejected with [reason]: [reason] itself if it is a [SwarmRelayError],
    else a [ConnectionFailed] error whose cause is [reason]. *)
Definition relayError_of (reason : JsError) : JsError :=
  if instanceof_SwarmRelayError reason then reason
  else SwarmRelayError "Connection failed" ConnectionFailed
         (if instanceof_Error reason then Some reason else None).

(** The errors passed to [options.onError], in call order. *)
Definition error_reports (os : list Observation) : list JsError :=
  omap (λ o, match o with ErrorReported e => Some e | _ => None end) os.

(** The four subscription calls of the public interface. *)
Inductive Subscription :=
| On (event : string) (handler : HandlerRef)
| Off (event : string) (handler : HandlerRef)
| OnAny (handler : HandlerRef)
| OffAny (handler : HandlerRef).

Section Usage.
Context {T : Type} `{!TransportAdapter T}.

Definition subscription (c : Subscription)
    : JS Observation (SwarmRelay T) unit :=
  match c with
  | On ev h => Relay.on ev h
  | Off ev h => Relay.off ev h
  | OnAny h => Relay.onAny h
  | OffAny h => Relay.offAny h
  end.

Definition subscriptions (cs : list Subscription) (r : SwarmRelay T)
    : SwarmRelay T :=
  foldl (λ r c, final (subscription c r)) r cs.

(** The subscription table is well formed: no handler twice in a set, no
    event twice in the map, no empty set left in the map. *)
Definition table_ok (r : SwarmRelay T) : Prop :=
  NoDup (wildcardHandlers r)
  ∧ NoDup (map_keys (handlers r))
  ∧ ∀ ev hs, (ev, hs) ∈ handlers r → NoDup hs ∧ hs ≠ [].
End Usage.

(** What a test does with a relay over the mock transport: set the error
    [connect] will reject with, await [connect()] (the rejection, if any,
    is caught by the test), call [disconnect()], or subscribe. *)
Inductive TestCall :=
| SetConnectError (e : option JsError)
| Connect
| Disconnect
| Subscribe (c : Subscription).

Definition test_call (r : SwarmRelay Mock.MockTransportAdapter) (c : TestCall)
    : SwarmRelay Mock.MockTransportAdapter :=
  match c with
  | SetConnectError e =>
      set_transport (Mock.set_connectError e (transport r)) r
  | Connect => final (Relay.connect r)
  | Disconnect => final (Relay.disconnect r)
  | Subscribe s => final (subscription s r)
  end.

Definition test_calls (cs : list TestCall)
    (r : SwarmRelay Mock.MockTransportAdapter)
    : SwarmRelay Mock.MockTransportAdapter :=
  foldl test_call r cs.

(** The relay and its mock transport agree: same state, and the relay's two
    listeners are registered, once, exactly while the state is not
    [Disconnected]. *)
Definition in_step (r : SwarmRelay Mock.MockTransportAdapter) : Prop :=
  Mock._state (transport r) = Relay._state r
  ∧ Relay._state r ≠ Connecting
  ∧ Mock.messageHandlers (transport r)
    = (if decide (Relay._state r = Disconnected) then []
       else [RelayHandleMessage])
  ∧ Mock.errorHandlers (transport r)
    = (if decide (Relay._state r = Disconnected) then []
       else [RelayHandleError]).




End Usage.

(** ** Concrete scenarios, after the repository's tests *)

Module Samples.
Import Js Types Effects.

(** *** Hub *)

Definition sample_broadcast : SwarmMessage :=
  {| id := "1-a"; source := "cart"; target := None; event := "cart:update";
     payload := "{items:['x'],total:9.99}"; timestamp := 1%Z |}.

Definition sample_targeted (t : string) : SwarmMessage :=
  {| id := "2-b"; source := "shell"; target := Some t; event := "notify";
     payload := "{msg:'hi'}"; timestamp := 2%Z |}.

(** [shell] on port 0 and [cart] on port 1. *)
Definition shell_and_cart : Worker.Hub :=
  (Worker.run [Worker.OnMessage 0 (SwarmRegister "shell");
               Worker.OnMessage 1 (SwarmRegister "cart")] Worker.initial).1.

(** Port 0 registers as [shell] and then again as [cart]. *)
Definition reregistered : Worker.Hub :=
  (Worker.run [Worker.OnMessage 0 (SwarmRegister "shell");
               Worker.OnMessage 0 (SwarmRegister "cart")] Worker.initial).1.

(** *** Client over the mock transport *)

Import Relay.

(** [new SwarmRelay({ clientId: 'test-app', transport, ... })] with both
    callbacks given. *)
Definition test_relay : SwarmRelay Mock.MockTransportAdapter :=
  Relay.new {| opt_clientId := "test-app"; opt_transport := Mock.new;
               opt_onStateChange := true; opt_onError := true |}.

Definition login : SwarmMessage :=
  {| id := "1"; source := "other"; target := None; event := "user:login";
     payload := "{userId:'u1'}"; timestamp := 0%Z |}.

(** Handlers that all return. *)
Definition quiet : HandlerBehaviour := λ _ _, Normal tt.

(** Handlers 1 and 7 throw, every other handler returns. *)
Definition boom : HandlerBehaviour :=
  λ h _, if decide (h = 1 ∨ h = 7) then Throw (PlainError "handler boom")
         else Normal tt.

(** [await relay.connect()] *)
Definition connected_relay : SwarmRelay Mock.MockTransportAdapter :=
  final (Relay.connect test_relay).

(** Handlers 1 and 2 on [user:login], 3 on [user:logout], wildcard 7. *)
Definition subscribed_relay : SwarmRelay Mock.MockTransportAdapter :=
  final (onAny 7
    (final (on "user:logout" 3
      (final (on "user:login" 2
        (final (on "user:login" 1 connected_relay))))))).

Definition readings : Readings :=
  {| id_now := 1700000000000%Z; id_random := "k3j9x0q2a";
     timestamp_now := 1700000000000%Z |}.

End Samples.

(** * Properties *)

(** ** Tactics *)

(** Running a method body: the monad's operations are unfolded, the
    methods and the collaborators stay folded. *)
Ltac js_run :=
  cbv beta iota zeta delta
    [mbind mret Effects.JS_bind Effects.JS_ret Effects.get Effects.modify
     Effects.emit Effects.throw Effects.complete Effects.try_catch
     Effects.final Effects.calls Effects.completion fst snd
     Relay.logger Relay.on_transport Relay.call_transport
     Relay.call_transport_send Relay.call_transport_connect].

(** Running a method body of the transport. *)
Ltac sw_run :=
  repeat
    (cbv beta iota zeta delta
       [mbind mret Effects.JS_bind Effects.JS_ret Effects.get Effects.modify
        Effects.emit Effects.throw Effects.complete Effects.try_catch
        Effects.final Effects.calls Effects.completion
        SharedWorker.clearTimeout SharedWorker.resolve SharedWorker.reject
        SharedWorker.this_port SharedWorker.this_worker SharedWorker.cleanup
        SharedWorker.handshakeAbort_call SharedWorker.connect_catch
        SharedWorker.getOrCreateBlobUrl SharedWorker.handshake];
     simpl).

(** Closed decidable facts are settled by evaluation. *)
Ltac by_compute := apply (bool_decide_unpack _); vm_compute; exact I.

(** ** JavaScript [Map] and [Set] *)

Section JsMapFacts.
Import Js.
Context {K V : Type} `{EqDecision K}.
Implicit Types (k : K) (v : V) (m : list (K * V)).

Lemma map_get_set_eq k v m : map_get k (map_set k v m) = Some v.
Proof.
  induction m as [|[k' v'] m IH]; simpl.
  - by rewrite decide_True.
  - destruct (decide (k' = k)) as [->|Hne]; simpl.
    + by rewrite decide_True.
    + by rewrite decide_False.
Qed.

Lemma map_get_set_ne k k' v m :
  k ≠ k' → map_get k' (map_set k v m) = map_get k' m.
Proof.
  intros Hne. induction m as [|[k0 v0] m IH]; simpl.
  - by rewrite decide_False.
  - destruct (decide (k0 = k)) as [->|Hk0]; simpl.
    + by rewrite !decide_False.
    + destruct (decide (k0 = k')); [done | apply IH].
Qed.

Lemma map_keys_set k v m :
  map_keys (map_set k v m) =
    if decide (k ∈ map_keys m) then map_keys m else map_keys m ++ [k].
Proof.
  unfold map_keys. induction m as [|[k' v'] m IH]; csimpl.
  - done.
  - destruct (decide (k' = k)) as [->|Hne]; csimpl.
    + by rewrite decide_True by apply list_elem_of_here.
    + rewrite IH. destruct (decide (k ∈ m.*1)) as [Hin|Hnin].
      * by rewrite decide_True by (by apply list_elem_of_further).
      * rewrite decide_False; [done|].
        apply not_elem_of_cons. split; [congruence | done].
Qed.

Lemma map_set_NoDup k v m : NoDup (map_keys m) → NoDup (map_keys (map_set k v m)).
Proof.
  intros Hnd. rewrite map_keys_set. case_decide; [done|].
  apply NoDup_app. split_and!; [done| |apply NoDup_singleton].
  intros x Hx ->%list_elem_of_singleton. done.
Qed.

Lemma map_delete_sublist k m : sublist (map_delete k m) m.
Proof.
  induction m as [|[k' v'] m IH]; simpl; [done|].
  destruct (decide (k' = k)); by constructor.
Qed.

Lemma map_delete_NoDup k m : NoDup (map_keys m) → NoDup (map_keys (map_delete k m)).
Proof.
  unfold map_keys. intros Hnd.
  eapply sublist_NoDup; [exact Hnd | apply fmap_sublist, map_delete_sublist].
Qed.

Lemma map_get_delete_eq k m : map_get k (map_delete k m) = None.
Proof.
  induction m as [|[k' v'] m IH]; simpl; [done|].
  destruct (decide (k' = k)) as [->|Hne]; simpl; [done|].
  by rewrite decide_False.
Qed.

Lemma map_get_Some_elem_of k v m : map_get k m = Some v → (k, v) ∈ m.
Proof.
  induction m as [|[k' v'] m IH]; simpl; [done|].
  destruct (decide (k' = k)) as [->|Hne].
  - intros [= ->]. left.
  - intros Hget. right. by apply IH.
Qed.

Lemma map_get_None_not_key k m : map_get k m = None ↔ k ∉ map_keys m.
Proof.
  unfold map_keys. induction m as [|[k' v'] m IH]; simpl.
  - split; [intros _; apply not_elem_of_nil | done].
  - rewrite not_elem_of_cons. destruct (decide (k' = k)) as [->|Hne].
    + split; [done | intros [? _]; done].
    + rewrite IH. split; [intros ?; split; [congruence | done] | by intros [_ ?]].
Qed.

Lemma elem_of_map_get_NoDup k v m :
  NoDup (map_keys m) → (k, v) ∈ m → map_get k m = Some v.
Proof.
  unfold map_keys. induction m as [|[k' v'] m IH]; simpl.
  - intros _ Hin. by apply elem_of_nil in Hin.
  - intros [Hnotin Hnd]%NoDup_cons [Heq|Hin]%elem_of_cons.
    + injection Heq as -> ->. by rewrite decide_True.
    + destruct (decide (k' = k)) as [->|Hne]; [|by apply IH].
      exfalso. apply Hnotin. apply list_elem_of_fmap. by exists (k, v).
Qed.
End JsMapFacts.

Section JsSetFacts.
Import Js.
Context {A : Type} `{EqDecision A}.
Implicit Types (x : A) (s : list A).

Lemma set_add_NoDup x s : NoDup s → NoDup (set_add x s).
Proof.
  intros Hnd. unfold set_add. case_decide; [done|].
  apply NoDup_app. split_and!; [done| |apply NoDup_singleton].
  intros y Hy ->%list_elem_of_singleton. done.
Qed.

Lemma set_add_fresh x s : x ∉ s → set_add x s = s ++ [x].
Proof. intros. unfold set_add. by rewrite decide_False. Qed.

Lemma set_add_present x s : x ∈ s → set_add x s = s.
Proof. intros. unfold set_add. by rewrite decide_True. Qed.

Lemma not_elem_of_set_delete x s : x ∉ set_delete x s.
Proof.
  induction s as [|y s IH]; simpl; [apply not_elem_of_nil|].
  destruct (decide (y = x)); [done|].
  by apply not_elem_of_cons.
Qed.
End JsSetFacts.

(** ** The hub *)

Section WorkerFacts.
Import Js Types Worker.

Lemma flat_map_forwardBroadcast message (m : list (string * MessagePort)) :
  flat_map (forwardBroadcast message) m =
    (λ e, (e.2, SwarmMessageData message)) <$>
      filter (λ e, e.1 ≠ source message) m.
Proof.
  induction m as [|[id p] m IH]; simpl; [done|].
  rewrite filter_cons. simpl. destruct (decide (id ≠ source message)); simpl;
    by rewrite IH.
Qed.

Lemma handleMessage_keys_NoDup port data hub :
  NoDup (map_keys (ports hub)) →
  NoDup (map_keys (ports (handleMessage port data hub).1)).
Proof.
  intros Hnd. destruct data; simpl; try done.
  - by apply map_set_NoDup.
  - destruct (if_truthy _); simpl; [by apply map_delete_NoDup | done].
  - destruct (if_truthy _); simpl; [|done].
    by destruct (map_get _ _).
Qed.

Lemma step_keys_NoDup ev hub :
  NoDup (map_keys (ports hub)) → NoDup (map_keys (ports (step ev hub).1)).
Proof.
  intros Hnd. destruct ev as [port data|port]; simpl.
  - by apply handleMessage_keys_NoDup.
  - unfold handleError. destruct (if_truthy _); simpl;
      [by apply map_delete_NoDup | done].
Qed.

Lemma run_keys_NoDup evs hub :
  NoDup (map_keys (ports hub)) → NoDup (map_keys (ports (run evs hub).1)).
Proof.
  revert hub. induction evs as [|ev evs IH]; intros hub Hnd; simpl; [done|].
  pose proof (step_keys_NoDup ev hub Hnd) as Hstep.
  destruct (step ev hub) as [hub1 out1]. simpl in Hstep.
  specialize (IH hub1 Hstep). destruct (run evs hub1) as [hub2 out2]. done.
Qed.
End WorkerFacts.

Section HubBroadcast.
Import Js Types Worker Samples.

Example shell_and_cart_ports :
  ports shell_and_cart = [("shell", 0); ("cart", 1)].
Proof. reflexivity. Qed.

Example reregistered_ports :
  ports reregistered = [("shell", 0); ("cart", 0)].
Proof. reflexivity. Qed.

Example cart_broadcast_reaches_shell_only :
  (handleMessage 1 (SwarmMessageData sample_broadcast) shell_and_cart).2
  = [(0, SwarmMessageData sample_broadcast)].
Proof. reflexivity. Qed.

(** C1, as stated, fails: the hub filters broadcast recipients by
    registry key, not by port.  Port 0 registers as [shell] and then as
    [cart]; its broadcast with source [cart] has no target, port 0 is the
    endpoint registered under the source, and port 0 still receives the
    broadcast through its [shell] entry. *)
Lemma broadcast_reaches_sender_registered_twice :
  target sample_broadcast = None
  ∧ map_get (source sample_broadcast) (ports reregistered) = Some 0
  ∧ 0 ∈ recipients
          (handleMessage 0 (SwarmMessageData sample_broadcast) reregistered).2.
Proof. split_and!; [reflexivity | reflexivity | vm_compute; left]. Qed.

(** C1 (amended): for every envelope without a target, the hub posts the
    envelope, unchanged and in registry order, to exactly the registry
    entries whose key differs from [source], and leaves the registry as it
    is; a port receives it iff it is registered under some other id, so the
    endpoint registered under [source] and under no other id never receives
    it. *)
Theorem broadcast_forwarded_to_other_entries :
  ∀ (hub : Hub) (port : MessagePort) (message : SwarmMessage),
    target message = None →
    let out := (handleMessage port (SwarmMessageData message) hub).2 in
    (handleMessage port (SwarmMessageData message) hub).1 = hub
    ∧ out = (λ e, (e.2, SwarmMessageData message)) <$>
              filter (λ e, e.1 ≠ source message) (ports hub)
    ∧ (∀ p, p ∈ recipients out ↔
            ∃ id, id ≠ source message ∧ (id, p) ∈ ports hub)
    ∧ (∀ p, (source message, p) ∈ ports hub →
            (∀ id, (id, p) ∈ ports hub → id = source message) →
            p ∉ recipients out).
Proof.
  intros hub port message Htarget. simpl. rewrite Htarget. simpl.
  rewrite flat_map_forwardBroadcast.
  assert (∀ p, p ∈ recipients ((λ e, (e.2, SwarmMessageData message)) <$>
                 filter (λ e, e.1 ≠ source message) (ports hub)) ↔
               ∃ id, id ≠ source message ∧ (id, p) ∈ ports hub) as Hrec.
  { intros p. unfold recipients. rewrite <- list_fmap_compose.
    rewrite list_elem_of_fmap. split.
    - intros [[id q] [-> [Hne Hin]%list_elem_of_filter]]. by exists id.
    - intros [id [Hne Hin]]. exists (id, p). split; [done|].
      by apply list_elem_of_filter. }
  split_and!; [done | done | exact Hrec |].
  intros p _ Honly [id [Hne Hin]]%Hrec. by apply Hne, Honly.
Qed.

(** The broadcast theorem at [cart] broadcasting on the hub of [shell] and
    [cart]: port 0 gets the envelope, port 1 (the sender) does not. *)
Lemma broadcast_forwarded_to_other_entries_witness :
  target sample_broadcast = None
  ∧ (handleMessage 1 (SwarmMessageData sample_broadcast) shell_and_cart).2
    = [(0, SwarmMessageData sample_broadcast)]
  ∧ 1 ∉ recipients
          (handleMessage 1 (SwarmMessageData sample_broadcast) shell_and_cart).2.
Proof.
  pose proof (broadcast_forwarded_to_other_entries shell_and_cart 1
                sample_broadcast eq_refl) as (_ & Hout & _ & Hself).
  split_and!; [reflexivity | exact Hout |].
  apply Hself; rewrite shell_and_cart_ports; simpl.
  - right. left.
  - intros id Hin.
    apply elem_of_cons in Hin as [Heq|Hin]; [by inversion Heq|].
    apply elem_of_cons in Hin as [Heq|Hin]; [by inversion Heq|].
    by apply elem_of_nil in Hin.
Defined.
End HubBroadcast.

Section HubTargetedAndRegister.
Import Js Types Worker Samples.

Example targeted_to_cart :
  (handleMessage 0 (SwarmMessageData (sample_targeted "cart")) shell_and_cart).2
  = [(1, SwarmMessageData (sample_targeted "cart"))].
Proof. reflexivity. Qed.

Example targeted_to_unknown_dropped :
  handleMessage 0 (SwarmMessageData (sample_targeted "nobody")) shell_and_cart
  = (shell_and_cart, []).
Proof. reflexivity. Qed.

(** C2, as stated, fails: the hub tests [message.target] for truthiness,
    so an envelope whose target is present but is the empty string is
    broadcast.  With [shell] on port 0 and [cart] on port 1, the envelope
    from [shell] with target [""] has a target, the registry has no entry
    for that target, and the envelope is delivered to port 1. *)
Lemma empty_target_is_broadcast :
  target (sample_targeted "") = Some ""
  ∧ map_get "" (ports shell_and_cart) = None
  ∧ (handleMessage 0 (SwarmMessageData (sample_targeted "")) shell_and_cart).2
    = [(1, SwarmMessageData (sample_targeted ""))].
Proof. split_and!; reflexivity. Qed.

(** C2 (amended): for every envelope whose target is present and is not the
    empty string: if the registry has an endpoint for the target, the hub
    posts the envelope, unchanged, to that endpoint and makes no other
    post; if it has none, the hub posts nothing at all (no delivery, and
    nothing back to the sender).  The handler completes and leaves the
    registry as it is in both cases. *)
Theorem targeted_forwarded_or_dropped :
  ∀ (hub : Hub) (port : MessagePort) (message : SwarmMessage) (t : string),
    target message = Some t →
    t ≠ "" →
    (handleMessage port (SwarmMessageData message) hub).1 = hub
    ∧ (∀ targetPort, map_get t (ports hub) = Some targetPort →
         (handleMessage port (SwarmMessageData message) hub).2
         = [(targetPort, SwarmMessageData message)])
    ∧ (map_get t (ports hub) = None →
         (handleMessage port (SwarmMessageData message) hub).2 = []).
Proof.
  intros hub port message t Htarget Hne. simpl. rewrite Htarget. simpl.
  unfold truthy. rewrite bool_decide_true by done.
  destruct (map_get t (ports hub)) as [p|]; simpl.
  - split_and!; [done | by intros ? [= <-] | done].
  - split_and!; done.
Qed.

(** The targeted theorem at [shell] sending to [cart] and to an id nobody
    registered. *)
Lemma targeted_forwarded_or_dropped_witness :
  (handleMessage 0 (SwarmMessageData (sample_targeted "cart")) shell_and_cart).2
  = [(1, SwarmMessageData (sample_targeted "cart"))]
  ∧ (handleMessage 0 (SwarmMessageData (sample_targeted "nobody"))
       shell_and_cart).2 = [].
Proof.
  split.
  - apply (targeted_forwarded_or_dropped shell_and_cart 0
             (sample_targeted "cart") "cart"); [reflexivity | done | reflexivity].
  - apply (targeted_forwarded_or_dropped shell_and_cart 0
             (sample_targeted "nobody") "nobody"); [reflexivity | done | reflexivity].
Defined.

(** C3: a register request stores the requesting port under the given id
    (whatever was stored there before, and without touching any other id),
    answers on that port with exactly one acknowledgement carrying the same
    id, and does so in every hub state, an id that is already registered
    included; and in every state the hub reaches from its initial one, each
    id has at most one port. *)
Theorem register_inserts_acknowledges_and_keeps_ids_unique :
  (∀ (hub : Hub) (port : MessagePort) (cid : string),
     let hub' := (handleMessage port (SwarmRegister cid) hub).1 in
     map_get cid (ports hub') = Some port
     ∧ (∀ other, other ≠ cid →
          map_get other (ports hub') = map_get other (ports hub))
     ∧ (handleMessage port (SwarmRegister cid) hub).2
       = [(port, SwarmRegistered cid)])
  ∧ (∀ (evs : list HubEvent),
       let hub := (run evs initial).1 in
       NoDup (map_keys (ports hub))
       ∧ ∀ cid p q, (cid, p) ∈ ports hub → (cid, q) ∈ ports hub → p = q).
Proof.
  split.
  - intros hub port cid. simpl. split_and!.
    + apply map_get_set_eq.
    + intros other Hne. by apply map_get_set_ne.
    + done.
  - intros evs hub.
    assert (NoDup (map_keys (ports hub))) as Hnd.
    { apply run_keys_NoDup. simpl. apply NoDup_nil_2. }
    split; [exact Hnd|].
    intros cid p q Hp%(elem_of_map_get_NoDup _ _ _ Hnd)
      Hq%(elem_of_map_get_NoDup _ _ _ Hnd).
    congruence.
Qed.

Example register_twice_overwrites :
  ports (run [OnMessage 0 (SwarmRegister "cart");
              OnMessage 1 (SwarmRegister "shell");
              OnMessage 2 (SwarmRegister "cart")] initial).1
  = [("cart", 2); ("shell", 1)].
Proof. reflexivity. Qed.
End HubTargetedAndRegister.

(** ** The client: dispatch *)

Section DispatchFacts.
Import Js Types Effects Relay.
Context {T : Type} `{!TransportAdapter T}.
Variable behaviour : HandlerBehaviour.
Implicit Types (r : SwarmRelay T) (message : SwarmMessage).

Lemma for_of_wildcardHandlers message (hs : list HandlerRef) r :
  for_of hs (λ handler,
    try_catch (call_wildcard behaviour handler message)
      (λ err, logger error "Wildcard handler threw" (ErrorArg err))) r
  = (Normal tt, r, flat_map (wildcard_trace behaviour message) hs).
Proof.
  induction hs as [|h hs IH]; [done|].
  simpl. unfold mbind, JS_bind at 1. unfold try_catch at 1.
  unfold call_wildcard at 1, wildcard_trace at 1, guarded.
  unfold mbind, JS_bind at 1, emit, complete. simpl.
  destruct (behaviour h _) as [[]|e]; simpl; by rewrite IH.
Qed.

Lemma for_of_eventHandlers message (hs : list HandlerRef) r :
  for_of hs (λ handler,
    try_catch (call_handler behaviour handler message)
      (λ err, logger error
                ("Handler for " +:+ quoted (event message) +:+ " threw")
                (ErrorArg err))) r
  = (Normal tt, r, flat_map (handler_trace behaviour message) hs).
Proof.
  induction hs as [|h hs IH]; [done|].
  simpl. unfold mbind, JS_bind at 1. unfold try_catch at 1.
  unfold call_handler at 1, handler_trace at 1, guarded.
  unfold mbind, JS_bind at 1, emit, complete. simpl.
  destruct (behaviour h _) as [[]|e]; simpl; by rewrite IH.
Qed.

(** The whole of what a dispatch does. *)
Lemma handleMessage_run message r :
  handleMessage behaviour message r
  = (Normal tt, r,
     Logged debug
       ("Received " +:+ quoted (event message) +:+ " from "
          +:+ quoted (source message)) (MessageArg message)
     :: flat_map (wildcard_trace behaviour message) (wildcardHandlers r)
     ++ flat_map (handler_trace behaviour message)
          (handlers_for (event message) r)).
Proof.
  unfold handleMessage, handlers_for.
  unfold mbind at 1, JS_bind at 1, logger at 1, emit at 1.
  unfold mbind at 1, JS_bind at 1, get at 1.
  unfold mbind at 1, JS_bind at 1.
  rewrite for_of_wildcardHandlers.
  unfold mbind at 1, JS_bind at 1, get at 1.
  destruct (map_get (event message) (handlers r)) as [hs|]; simpl.
  - by rewrite for_of_eventHandlers.
  - by rewrite app_nil_r.
Qed.

Lemma invocations_wildcard_trace message (hs : list HandlerRef) :
  invocations (flat_map (wildcard_trace behaviour message) hs)
  = (λ h, WildcardCalled h (event message) (payload message) message) <$> hs.
Proof.
  unfold invocations. induction hs as [|h hs IH]; [done|].
  cbn [flat_map]. rewrite filter_app, IH. unfold wildcard_trace, guarded.
  rewrite filter_cons_True by done.
  by destruct (behaviour h _).
Qed.

Lemma invocations_handler_trace message (hs : list HandlerRef) :
  invocations (flat_map (handler_trace behaviour message) hs)
  = (λ h, HandlerCalled h (payload message) message) <$> hs.
Proof.
  unfold invocations. induction hs as [|h hs IH]; [done|].
  cbn [flat_map]. rewrite filter_app, IH. unfold handler_trace, guarded.
  rewrite filter_cons_True by done.
  by destruct (behaviour h _).
Qed.

Lemma invocations_handleMessage message r :
  invocations (calls (handleMessage behaviour message r))
  = ((λ h, WildcardCalled h (event message) (payload message) message)
       <$> wildcardHandlers r)
    ++ ((λ h, HandlerCalled h (payload message) message)
          <$> handlers_for (event message) r).
Proof.
  rewrite handleMessage_run. unfold calls. simpl.
  unfold invocations. rewrite filter_cons_False by (simpl; tauto).
  rewrite filter_app. fold (invocations (flat_map (wildcard_trace behaviour message) (wildcardHandlers r))).
  fold (invocations (flat_map (handler_trace behaviour message) (handlers_for (event message) r))).
  by rewrite invocations_wildcard_trace, invocations_handler_trace.
Qed.
End DispatchFacts.

Section SubscriptionFacts.
Import Js Types Effects Relay.
Context {T : Type} `{!TransportAdapter T}.
Implicit Types (r : SwarmRelay T).

Lemma map_set_set {K V} `{EqDecision K} (k : K) (v v0 : V) (m : list (K * V)) :
  map_set k v (map_set k v0 m) = map_set k v m.
Proof.
  induction m as [|[k' v'] m IH]; simpl.
  - by rewrite decide_True.
  - destruct (decide (k' = k)) as [->|Hne]; simpl.
    + by rewrite decide_True.
    + rewrite decide_False by done. by rewrite IH.
Qed.

Lemma on_run event handler r :
  on event handler r
  = (Normal tt,
     set_handlers
       (map_set event (set_add handler (handlers_for event r)) (handlers r)) r,
     [Logged debug ("Subscribed to " +:+ quoted event) NoArg]).
Proof.
  unfold on, handlers_for, map_has.
  unfold mbind at 1, JS_bind at 1, get at 1.
  destruct (map_get event (handlers r)) as [hs|] eqn:Hget.
  - rewrite bool_decide_true by eauto. js_run. simpl. by rewrite Hget.
  - rewrite bool_decide_false by (by intros [? ?]). js_run. simpl.
    rewrite map_get_set_eq. simpl. by rewrite map_set_set.
Qed.

Lemma handlers_for_on event handler r :
  handlers_for event (final (on event handler r))
  = set_add handler (handlers_for event r).
Proof.
  rewrite on_run. unfold final, handlers_for at 1. simpl.
  by rewrite map_get_set_eq.
Qed.

Lemma handlers_for_on_ne event event' handler r :
  event ≠ event' →
  handlers_for event' (final (on event handler r)) = handlers_for event' r.
Proof.
  intros Hne. rewrite on_run. unfold final, handlers_for. simpl.
  by rewrite map_get_set_ne.
Qed.

Lemma onAny_run handler r :
  onAny handler r
  = (Normal tt,
     set_wildcardHandlers (set_add handler (wildcardHandlers r)) r,
     [Logged debug "Subscribed to wildcard (all events)" NoArg]).
Proof. reflexivity. Qed.

Lemma elem_of_flat_map {A B} (f : A → list B) (xs : list A) (x : A) (y : B) :
  x ∈ xs → y ∈ f x → y ∈ flat_map f xs.
Proof.
  intros Hx Hy. induction Hx as [x xs|x x' xs Hx IH]; simpl;
    apply elem_of_app; [by left | right; by apply IH].
Qed.
End SubscriptionFacts.

Section DispatchOrder.
Import Js Types Effects Relay.

(** C4: a dispatch calls every wildcard handler with
    [(event, payload, envelope)] in the iteration order of the wildcard
    set, then every handler of the envelope's event with
    [(payload, envelope)] in the iteration order of that event's set, and
    calls nothing else: a handler that is not subscribed to the envelope's
    event is not called as an event handler.  The iteration order is the
    subscription order: [on] and [onAny] put a handler that is not yet in
    the set at its end and leave the sets of other events alone. *)
Theorem dispatch_wildcards_then_event_handlers_in_order :
  ∀ (T : Type) (adapter : TransportAdapter T) (behaviour : HandlerBehaviour)
    (r : SwarmRelay T) (message : SwarmMessage),
    invocations (calls (handleMessage behaviour message r))
    = ((λ h, WildcardCalled h (event message) (payload message) message)
         <$> wildcardHandlers r)
      ++ ((λ h, HandlerCalled h (payload message) message)
            <$> handlers_for (event message) r)
    ∧ (∀ h p m, h ∉ handlers_for (event message) r →
         HandlerCalled h p m ∉ calls (handleMessage behaviour message r))
    ∧ (∀ ev h, h ∉ handlers_for ev r →
         handlers_for ev (final (on ev h r)) = handlers_for ev r ++ [h]
         ∧ wildcardHandlers (final (on ev h r)) = wildcardHandlers r
         ∧ ∀ ev', ev ≠ ev' →
             handlers_for ev' (final (on ev h r)) = handlers_for ev' r)
    ∧ (∀ h, h ∉ wildcardHandlers r →
         wildcardHandlers (final (onAny h r)) = wildcardHandlers r ++ [h]
         ∧ handlers (final (onAny h r)) = handlers r).
Proof.
  intros T adapter behaviour r message. split_and!.
  - apply invocations_handleMessage.
  - intros h p m Hnot Hin.
    assert (HandlerCalled h p m
              ∈ invocations (calls (handleMessage behaviour message r))) as Hinv.
    { apply list_elem_of_filter. by split. }
    rewrite invocations_handleMessage in Hinv.
    apply elem_of_app in Hinv as [Hw|He].
    + apply list_elem_of_fmap in Hw as [h' [Heq _]]. discriminate.
    + apply list_elem_of_fmap in He as [h' [Heq Hh']].
      injection Heq as -> _ _. done.
  - intros ev h Hnot. split_and!.
    + rewrite handlers_for_on. by apply set_add_fresh.
    + by rewrite on_run.
    + intros ev' Hne. by apply handlers_for_on_ne.
  - intros h Hnot. rewrite onAny_run. unfold final. simpl.
    split; [by apply set_add_fresh | done].
Qed.
End DispatchOrder.

Section DispatchIsolation.
Import Js Types Effects Relay Samples.

Example subscribed_relay_tables :
  wildcardHandlers subscribed_relay = [7]
  ∧ handlers subscribed_relay = [("user:login", [1; 2]); ("user:logout", [3])].
Proof. split; reflexivity. Qed.

(** The dispatch theorem at a [user:login] envelope on the relay with
    wildcard 7, handlers 1 and 2 on [user:login] and 3 on [user:logout]. *)
Lemma dispatch_wildcards_then_event_handlers_in_order_witness :
  invocations (calls (handleMessage quiet login subscribed_relay))
  = [WildcardCalled 7 "user:login" "{userId:'u1'}" login;
     HandlerCalled 1 "{userId:'u1'}" login;
     HandlerCalled 2 "{userId:'u1'}" login]
  ∧ (HandlerCalled 3 "{userId:'u1'}" login
       ∉ calls (handleMessage quiet login subscribed_relay))
  ∧ handlers_for "user:login" (final (on "user:login" 5 subscribed_relay))
    = [1; 2; 5]
  ∧ wildcardHandlers (final (onAny 8 subscribed_relay)) = [7; 8].
Proof.
  pose proof (dispatch_wildcards_then_event_handlers_in_order _ _ quiet
                subscribed_relay login) as (Horder & Hother & Hon & HonAny).
  split_and!.
  - exact Horder.
  - apply Hother. by_compute.
  - apply (Hon "user:login" 5). by_compute.
  - apply (HonAny 8). by_compute.
Defined.

(** C5: whatever the handlers do, a dispatch completes normally and
    leaves the relay as it was; every wildcard handler and every handler
    of the envelope's event is called, those that come after a throwing
    one included; and each thrown value is passed to [logger.error]. *)
Theorem dispatch_isolates_throwing_handlers :
  ∀ (T : Type) (adapter : TransportAdapter T) (behaviour : HandlerBehaviour)
    (r : SwarmRelay T) (message : SwarmMessage),
    let run := handleMessage behaviour message r in
    completion run = Normal tt
    ∧ final run = r
    ∧ (∀ h, h ∈ wildcardHandlers r →
         WildcardCalled h (event message) (payload message) message
           ∈ calls run)
    ∧ (∀ h, h ∈ handlers_for (event message) r →
         HandlerCalled h (payload message) message ∈ calls run)
    ∧ (∀ h e, h ∈ wildcardHandlers r →
         behaviour h (WildcardArgs (event message) (payload message) message)
           = Throw e →
         Logged error "Wildcard handler threw" (ErrorArg e) ∈ calls run)
    ∧ (∀ h e, h ∈ handlers_for (event message) r →
         behaviour h (HandlerArgs (payload message) message) = Throw e →
         Logged error
           ("Handler for " +:+ quoted (event message) +:+ " threw")
           (ErrorArg e) ∈ calls run).
Proof.
  intros T adapter behaviour r message run. subst run.
  rewrite handleMessage_run. unfold completion, final, calls. simpl.
  split_and!; [done | done | | | |].
  - intros h Hh. right. apply elem_of_app. left.
    eapply elem_of_flat_map; [exact Hh|]. left.
  - intros h Hh. right. apply elem_of_app. right.
    eapply elem_of_flat_map; [exact Hh|]. left.
  - intros h e Hh Hthrow. right. apply elem_of_app. left.
    eapply elem_of_flat_map; [exact Hh|].
    unfold wildcard_trace, guarded. rewrite Hthrow. right. left.
  - intros h e Hh Hthrow. right. apply elem_of_app. right.
    eapply elem_of_flat_map; [exact Hh|].
    unfold handler_trace, guarded. rewrite Hthrow. right. left.
Qed.

Example boom_dispatch :
  handleMessage boom login subscribed_relay
  = (Normal tt, subscribed_relay,
     [Logged debug ("Received " +:+ quoted "user:login" +:+ " from "
                      +:+ quoted "other") (MessageArg login);
      WildcardCalled 7 "user:login" "{userId:'u1'}" login;
      Logged error "Wildcard handler threw" (ErrorArg (PlainError "handler boom"));
      HandlerCalled 1 "{userId:'u1'}" login;
      Logged error ("Handler for " +:+ quoted "user:login" +:+ " threw")
        (ErrorArg (PlainError "handler boom"));
      HandlerCalled 2 "{userId:'u1'}" login]).
Proof. reflexivity. Qed.

(** The isolation theorem at the same relay when handlers 1 and 7 throw. *)
Lemma dispatch_isolates_throwing_handlers_witness :
  completion (handleMessage boom login subscribed_relay) = Normal tt
  ∧ HandlerCalled 2 "{userId:'u1'}" login
      ∈ calls (handleMessage boom login subscribed_relay)
  ∧ Logged error "Wildcard handler threw" (ErrorArg (PlainError "handler boom"))
      ∈ calls (handleMessage boom login subscribed_relay)
  ∧ Logged error ("Handler for " +:+ quoted "user:login" +:+ " threw")
      (ErrorArg (PlainError "handler boom"))
      ∈ calls (handleMessage boom login subscribed_relay).
Proof.
  pose proof (dispatch_isolates_throwing_handlers _ _ boom subscribed_relay
                login) as (Hdone & _ & _ & Hcalled & Hwlog & Hhlog).
  split_and!.
  - exact Hdone.
  - apply (Hcalled 2). by_compute.
  - apply (Hwlog 7); [by_compute | reflexivity].
  - apply (Hhlog 1); [by_compute | reflexivity].
Defined.
End DispatchIsolation.

(** ** The client: sending *)

Section IdFacts.
Import Js Types Effects Relay.

Lemma pretty_N_char_no_dash (x : N) : pretty_N_char x ≠ "-"%char.
Proof. unfold pretty_N_char. by repeat case_match. Qed.

Lemma pretty_N_go_no_dash (x : N) (s : string) :
  no_dash s → no_dash (pretty_N_go x s).
Proof.
  revert s. induction (N.lt_wf_0 x) as [x _ IH]; intros s Hs.
  destruct (decide (x = 0%N)) as [->|Hx].
  - by rewrite pretty_N_go_0.
  - rewrite pretty_N_go_step by lia. apply IH.
    + apply N.div_lt; lia.
    + split; [apply pretty_N_char_no_dash | done].
Qed.

Lemma pretty_Z_no_dash (z : Z) : (0 ≤ z)%Z → no_dash (pretty z).
Proof.
  destruct z as [|p|p]; intros Hz; [by split | | lia].
  unfold pretty, pretty_Z, pretty, pretty_positive, pretty, pretty_N.
  rewrite decide_False by done. by apply pretty_N_go_no_dash.
Qed.

(** A dash-free prefix is delimited by the first dash. *)
Lemma dash_separated_inj (a b r1 r2 : string) :
  no_dash a → no_dash b →
  a +:+ "-" +:+ r1 = b +:+ "-" +:+ r2 → a = b ∧ r1 = r2.
Proof.
  revert b. induction a as [|c a IH]; intros [|d b] Ha Hb Heq;
    cbv beta iota zeta delta [String.append] in Heq; fold String.append in Heq.
  - by injection Heq as ->.
  - injection Heq as <- _. by destruct Hb.
  - injection Heq as -> _. by destruct Ha.
  - injection Heq as -> Heq. destruct Ha as [_ Ha], Hb as [_ Hb].
    by destruct (IH b Ha Hb Heq) as [-> ->].
Qed.

Lemma generateId_inj (n1 n2 : Z) (r1 r2 : string) :
  (0 ≤ n1)%Z → (0 ≤ n2)%Z →
  generateId n1 r1 = generateId n2 r2 → n1 = n2 ∧ r1 = r2.
Proof.
  intros H1 H2 Heq. unfold generateId in Heq.
  apply dash_separated_inj in Heq as [Hn ->]; [|by apply pretty_Z_no_dash..].
  split; [|done]. by apply (inj pretty).
Qed.
End IdFacts.

Section SendFacts.
Import Js Types Effects Relay.
Context {T : Type} `{!TransportAdapter T}.
Implicit Types (r : SwarmRelay T).

Lemma set_transport_id r : set_transport (transport r) r = r.
Proof. by destruct r. Qed.

Lemma send_not_connected env target ev pl r :
  _state r ≠ Connected →
  send env target ev pl r = (Throw (SwarmRelayError "Not connected. Call connect() first."
              NotConnected None), r, []).
Proof.
  intros Hst. unfold send, assertConnected. js_run.
  by rewrite decide_True.
Qed.

Lemma broadcast_not_connected env ev pl r :
  _state r ≠ Connected →
  broadcast env ev pl r = (Throw (SwarmRelayError "Not connected. Call connect() first."
              NotConnected None), r, []).
Proof.
  intros Hst. unfold broadcast, assertConnected. js_run.
  by rewrite decide_True.
Qed.

Lemma send_connected env tgt ev pl r :
  _state r = Connected →
  send env tgt ev pl r
  = let message := send_envelope env (Some tgt) ev pl r in
    ((transport_send message (transport r)).1,
     set_transport (transport_send message (transport r)).2 r,
     [Logged debug ("Sending " +:+ quoted ev +:+ " to " +:+ quoted tgt)
        (MessageArg message);
      TransportCalled (Tsend message)]).
Proof.
  intros Hst. unfold send, assertConnected, send_envelope. js_run.
  rewrite decide_False by (by intros ?). simpl.
  by destruct (transport_send _ _) as [[] ?].
Qed.

Lemma broadcast_connected env ev pl r :
  _state r = Connected →
  broadcast env ev pl r
  = let message := send_envelope env None ev pl r in
    ((transport_send message (transport r)).1,
     set_transport (transport_send message (transport r)).2 r,
     [Logged debug ("Broadcasting " +:+ quoted ev) (MessageArg message);
      TransportCalled (Tsend message)]).
Proof.
  intros Hst. unfold broadcast, assertConnected, send_envelope. js_run.
  rewrite decide_False by (by intros ?). simpl.
  by destruct (transport_send _ _) as [[] ?].
Qed.
End SendFacts.

Section Sending.
Import Js Types Effects Relay Samples.

Example connected_relay_state :
  _state connected_relay = Connected
  ∧ Mock.sentMessages (transport connected_relay) = [].
Proof. split; reflexivity. Qed.

(** The two envelopes of [send('a', 'user:login', ...)] followed by
    [send('b', 'user:logout', ...)] when both calls read the same clock
    value and draw the same random suffix. *)
Example two_sends_same_readings :
  Mock.sentMessages
    (transport
       (final (send readings "b" "user:logout" "{reason:'x'}"
          (final (send readings "a" "user:login" "{userId:'u1'}"
             connected_relay)))))
  = [send_envelope readings (Some "a") "user:login" "{userId:'u1'}"
       connected_relay;
     send_envelope readings (Some "b") "user:logout" "{reason:'x'}"
       connected_relay].
Proof. reflexivity. Qed.

(** C6, as stated, fails on the uniqueness of the id: [generateId()] joins
    the clock reading and a random suffix, so two calls that read the same
    millisecond and draw the same suffix hand two different envelopes with
    one and the same id to the transport. *)
Lemma two_sends_share_an_id :
  let first := send_envelope readings (Some "a") "user:login" "{userId:'u1'}"
                 connected_relay in
  let second := send_envelope readings (Some "b") "user:logout" "{reason:'x'}"
                  connected_relay in
  Mock.sentMessages
    (transport
       (final (send readings "b" "user:logout" "{reason:'x'}"
          (final (send readings "a" "user:login" "{userId:'u1'}"
             connected_relay)))))
  = [first; second]
  ∧ first ≠ second
  ∧ id first = id second.
Proof. split_and!; [reflexivity | discriminate | reflexivity]. Qed.

(** C6 (amended): when the relay is not [Connected], [send] and [broadcast]
    throw the [NotConnected] error, change nothing and make no call at all
    (so none on the transport).  When it is [Connected], they build the
    envelope whose id is [generateId()] of the readings taken in the call,
    whose timestamp is the clock reading, whose source is the relay's own id
    and whose target is the given one ([send]) or absent ([broadcast]), and
    hand exactly that envelope to [transport.send], whose completion is the
    call's.  The id differs from the id of any call that read another clock
    value or drew another random suffix. *)
Theorem send_and_broadcast_check_state_and_build_envelope :
  ∀ (T : Type) (adapter : TransportAdapter T) (r : SwarmRelay T)
    (env : Readings) (tgt ev : string) (pl : Payload),
    (_state r ≠ Connected →
       send env tgt ev pl r
       = (Throw (SwarmRelayError "Not connected. Call connect() first."
                   NotConnected None), r, [])
       ∧ broadcast env ev pl r
         = (Throw (SwarmRelayError "Not connected. Call connect() first."
                     NotConnected None), r, []))
    ∧ (_state r = Connected →
         let sent := {| id := generateId (id_now env) (id_random env);
                        source := clientId r;
                        target := Some tgt;
                        event := ev;
                        payload := pl;
                        timestamp := timestamp_now env |} in
         let cast := {| id := generateId (id_now env) (id_random env);
                        source := clientId r;
                        target := None;
                        event := ev;
                        payload := pl;
                        timestamp := timestamp_now env |} in
         completion (send env tgt ev pl r) = (transport_send sent (transport r)).1
         ∧ transport (final (send env tgt ev pl r))
           = (transport_send sent (transport r)).2
         ∧ transport_calls (calls (send env tgt ev pl r)) = [Tsend sent]
         ∧ completion (broadcast env ev pl r)
           = (transport_send cast (transport r)).1
         ∧ transport (final (broadcast env ev pl r))
           = (transport_send cast (transport r)).2
         ∧ transport_calls (calls (broadcast env ev pl r)) = [Tsend cast])
    ∧ (∀ env' : Readings,
         (0 ≤ id_now env)%Z → (0 ≤ id_now env')%Z →
         (id_now env ≠ id_now env' ∨ id_random env ≠ id_random env') →
         generateId (id_now env) (id_random env)
         ≠ generateId (id_now env') (id_random env')).
Proof.
  intros T adapter r env tgt ev pl. split_and!.
  - intros Hst. split.
    + by apply send_not_connected.
    + by apply broadcast_not_connected.
  - intros Hst. simpl.
    rewrite (send_connected env tgt ev pl r Hst).
    rewrite (broadcast_connected env ev pl r Hst).
    unfold completion, final, calls, send_envelope. simpl. done.
  - intros env' H0 H0' Hdiff Heq.
    apply generateId_inj in Heq as [Hn Hr]; [|done..].
    by destruct Hdiff.
Qed.

(** The sending theorem at a relay that never connected, at a connected
    one, and at two clock readings one millisecond apart. *)
Lemma send_and_broadcast_check_state_and_build_envelope_witness :
  completion (send readings "other-app" "user:login" "{userId:'u123'}" test_relay)
  = Throw (SwarmRelayError "Not connected. Call connect() first."
             NotConnected None)
  ∧ transport_calls
      (calls (send readings "other-app" "user:login" "{userId:'u123'}"
                connected_relay))
    = [Tsend {| id := "1700000000000-k3j9x0q2a"; source := "test-app";
                target := Some "other-app"; event := "user:login";
                payload := "{userId:'u123'}";
                timestamp := 1700000000000%Z |}]
  ∧ generateId 1700000000000%Z "k3j9x0q2a" ≠ generateId 1700000000001%Z "k3j9x0q2a".
Proof.
  split_and!.
  - pose proof (send_and_broadcast_check_state_and_build_envelope _ _ test_relay
                  readings "other-app" "user:login" "{userId:'u123'}")
      as (Hnot & _ & _).
    destruct Hnot as [Hsend _]; [discriminate|].
    by rewrite Hsend.
  - pose proof (send_and_broadcast_check_state_and_build_envelope _ _
                  connected_relay readings "other-app" "user:login"
                  "{userId:'u123'}") as (_ & Hconn & _).
    destruct (Hconn eq_refl) as (_ & _ & Hcalls & _). exact Hcalls.
  - pose proof (send_and_broadcast_check_state_and_build_envelope _ _
                  connected_relay readings "other-app" "user:login"
                  "{userId:'u123'}") as (_ & _ & Hfresh).
    apply (Hfresh {| id_now := 1700000000001%Z; id_random := "k3j9x0q2a";
                     timestamp_now := 1700000000001%Z |}); simpl;
      [lia | lia | left; lia].
Defined.
End Sending.

(** ** The client: lifecycle *)

Section LifecycleFacts.
Import Js Types Effects Relay.
Context {T : Type} `{!TransportAdapter T}.
Implicit Types (r : SwarmRelay T).


Lemma disconnect_disconnected r :
  _state r = Disconnected → disconnect r = (Normal tt, r, []).
Proof.
  intros Hst. unfold disconnect. js_run. by rewrite decide_True.
Qed.

Lemma disconnect_not_disconnected r :
  _state r ≠ Disconnected →
  completion (disconnect r) = Normal tt
  ∧ final (disconnect r) = disconnected_from r
  ∧ transport_calls (calls (disconnect r))
    = [ToffMessage RelayHandleMessage; ToffError RelayHandleError; Tdisconnect]
  ∧ state_changes (calls (disconnect r))
    = if onStateChange r then [Disconnected] else [].
Proof.
  intros Hst. unfold disconnect, setState. js_run.
  rewrite decide_False by done. simpl.
  destruct (onStateChange r); done.
Qed.

Lemma connect_begin_not_connected r :
  _state r ≠ Connected →
  let t1 := transport_onError RelayHandleError
              (transport_onMessage RelayHandleMessage (transport r)) in
  completion (connect_begin r)
  = Normal (Awaiting (transport_connect (clientId r) t1).1)
  ∧ final (connect_begin r)
    = set_transport (transport_connect (clientId r) t1).2
        (set__state Connecting r)
  ∧ state_changes (calls (connect_begin r))
    = (if onStateChange r then [Connecting] else [])
  ∧ transport_calls (calls (connect_begin r))
    = [TonMessage RelayHandleMessage; TonError RelayHandleError;
       Tconnect (clientId r)].
Proof.
  intros Hst. unfold connect_begin, setState. js_run.
  rewrite decide_False by done. simpl.
  destruct (transport_connect (clientId r)
              (transport_onError RelayHandleError
                 (transport_onMessage RelayHandleMessage (transport r))))
    as [p t2] eqn:Hconnect.
  destruct (onStateChange r); simpl; rewrite ?Hconnect; done.
Qed.

End LifecycleFacts.

Section Lifecycle.
Import Js Types Effects Relay Samples.


(** After a working [disconnect()] the mock transport has no listener
    left, so a simulated message reaches nothing. *)
Lemma simulateMessage_after_disconnect behaviour message
    (r : SwarmRelay Mock.MockTransportAdapter) :
  Mock.simulateMessage behaviour message (disconnected_from r)
  = (Normal tt, disconnected_from r, []).
Proof. reflexivity. Qed.

(** C7, as stated, fails: [disconnect()] returns at once when the state
    is [Disconnected], before it clears anything.  A handler subscribed on a
    relay that was never connected survives [disconnect()], and a message
    that arrives after that [disconnect()] (once the relay has connected)
    calls it. *)
Lemma disconnect_while_disconnected_keeps_subscriptions :
  let subscribed := final (on "user:login" 1 test_relay) in
  let after := final (disconnect subscribed) in
  _state subscribed = Disconnected
  ∧ handlers after = [("user:login", [1])]
  ∧ invocations
      (calls (Mock.simulateMessage quiet login (final (connect after))))
    = [HandlerCalled 1 "{userId:'u1'}" login].
Proof. split_and!; reflexivity. Qed.

(** C7 (amended): a [disconnect()] called in any state other than
    [Disconnected] completes normally, takes the relay's two listeners off
    the transport and disconnects it, empties the per-event table and the
    wildcard set and ends in [Disconnected]; a message dispatched to the
    relay afterwards calls no handler, and over the mock transport a
    simulated message reaches no listener at all.  Called in [Disconnected],
    [disconnect()] does nothing and keeps the subscriptions. *)
Theorem disconnect_clears_subscriptions_unless_disconnected :
  ∀ (T : Type) (adapter : TransportAdapter T) (behaviour : HandlerBehaviour)
    (r : SwarmRelay T),
    (_state r ≠ Disconnected →
       completion (disconnect r) = Normal tt
       ∧ handlers (final (disconnect r)) = []
       ∧ wildcardHandlers (final (disconnect r)) = []
       ∧ _state (final (disconnect r)) = Disconnected
       ∧ transport (final (disconnect r))
         = transport_disconnect
             (transport_offError RelayHandleError
                (transport_offMessage RelayHandleMessage (transport r)))
       ∧ (∀ message,
            invocations
              (calls (handleMessage behaviour message (final (disconnect r))))
            = []))
    ∧ (∀ (m : SwarmRelay Mock.MockTransportAdapter) message,
         _state m ≠ Disconnected →
         calls (Mock.simulateMessage behaviour message (final (disconnect m)))
         = [])
    ∧ (_state r = Disconnected → disconnect r = (Normal tt, r, [])).
Proof.
  intros T adapter behaviour r. split_and!.
  - intros Hst.
    destruct (disconnect_not_disconnected r Hst) as (Hdone & Hfinal & _ & _).
    rewrite Hfinal.
    split_and!; try done; intros message; by rewrite invocations_handleMessage.
  - intros m message Hst.
    destruct (disconnect_not_disconnected m Hst) as (_ & Hfinal & _ & _).
    rewrite Hfinal. by rewrite simulateMessage_after_disconnect.
  - apply disconnect_disconnected.
Qed.

Example disconnect_after_connect :
  handlers (final (disconnect subscribed_relay)) = []
  ∧ wildcardHandlers (final (disconnect subscribed_relay)) = []
  ∧ Mock.simulateMessage quiet login (final (disconnect subscribed_relay))
    = (Normal tt, final (disconnect subscribed_relay), []).
Proof. split_and!; reflexivity. Qed.

(** The disconnect theorem at the connected relay with its four
    subscriptions and at the relay that never connected. *)
Lemma disconnect_clears_subscriptions_unless_disconnected_witness :
  handlers (final (disconnect subscribed_relay)) = []
  ∧ wildcardHandlers (final (disconnect subscribed_relay)) = []
  ∧ calls (Mock.simulateMessage quiet login (final (disconnect subscribed_relay)))
    = []
  ∧ disconnect test_relay = (Normal tt, test_relay, []).
Proof.
  pose proof (disconnect_clears_subscriptions_unless_disconnected _ _ quiet
                subscribed_relay) as (Hclear & Hmock & _).
  pose proof (disconnect_clears_subscriptions_unless_disconnected _ _ quiet
                test_relay) as (_ & _ & Hnoop).
  destruct Hclear as (_ & Hh & Hw & _); [discriminate|].
  split_and!; [exact Hh | exact Hw | | ].
  - apply Hmock. discriminate.
  - apply Hnoop. reflexivity.
Defined.


Example connect_twice_over_mock :
  let once := connect test_relay in
  let twice := connect (final once) in
  state_changes (calls once ++ calls twice) = [Connecting; Connected]
  ∧ _state (final twice) = Connected
  ∧ final twice = final once
  ∧ transport_calls (calls once ++ calls twice)
    = [TonMessage RelayHandleMessage; TonError RelayHandleError;
       Tconnect "test-app"].
Proof. split_and!; reflexivity. Qed.

End Lifecycle.

(** ** The mock transport *)

Section MockSend.
Import Js Types Effects Relay Samples.
Import Mock.

Lemma send_all_without_sendError (messages : list SwarmMessage)
    (t : MockTransportAdapter) :
  sendError t = None →
  send_all messages t
  = (Normal tt, set_sentMessages (sentMessages t ++ messages) t).
Proof.
  revert t. induction messages as [|m ms IH]; intros t Hok; simpl.
  - rewrite app_nil_r. by destruct t.
  - unfold send. rewrite Hok. rewrite IH by done. simpl.
    by rewrite <- app_assoc.
Qed.

(** C10: with [sendError] set, [send] throws that very error and leaves the
    transport, its [sentMessages] included, exactly as it was; without it,
    [send] completes and the only change is the given message appended at
    the end of [sentMessages].  Hence a run of sends appends the messages in
    the order they were sent. *)
Theorem mock_send_throws_or_appends :
  ∀ (t : MockTransportAdapter) (message : SwarmMessage),
    (∀ e, sendError t = Some e → send message t = (Throw e, t))
    ∧ (sendError t = None →
         send message t
         = (Normal tt, set_sentMessages (sentMessages t ++ [message]) t))
    ∧ (∀ messages, sendError t = None →
         (send_all messages t).1 = Normal tt
         ∧ sentMessages (send_all messages t).2 = sentMessages t ++ messages).
Proof.
  intros t message. split_and!.
  - intros e He. unfold send. by rewrite He.
  - intros Hok. unfold send. by rewrite Hok.
  - intros messages Hok. by rewrite send_all_without_sendError.
Qed.

(** The mock theorem at a transport with [sendError] set and at a fresh
    one. *)
Lemma mock_send_throws_or_appends_witness :
  send login (set_sendError (Some (PlainError "send failed")) Mock.new)
  = (Throw (PlainError "send failed"),
     set_sendError (Some (PlainError "send failed")) Mock.new)
  ∧ sentMessages (send login Mock.new).2 = [login]
  ∧ sentMessages (send_all [login; sample_broadcast; sample_targeted "cart"]
                    Mock.new).2
    = [login; sample_broadcast; sample_targeted "cart"].
Proof.
  pose proof (mock_send_throws_or_appends
                (set_sendError (Some (PlainError "send failed")) Mock.new) login)
    as (Hthrow & _ & _).
  pose proof (mock_send_throws_or_appends Mock.new login)
    as (_ & Happend & Hall).
  split_and!.
  - apply Hthrow. reflexivity.
  - rewrite Happend; reflexivity.
  - apply (Hall [login; sample_broadcast; sample_targeted "cart"]). reflexivity.
Defined.
End MockSend.

(** ** The SharedWorker transport *)

Section HandshakeFacts.
Import Js Types Effects Relay SharedWorker.
Implicit Types (w : World) (h : nat).

Lemma for_of_emit {O S A} (f : A → O) (xs : list A) (s : S) :
  for_of xs (λ x, emit (f x)) s = (Normal tt, s, f <$> xs).
Proof.
  induction xs as [|x xs IH]; [done|].
  simpl. unfold mbind, JS_bind, emit at 1. by rewrite IH.
Qed.

Lemma handlePortMessage_run data w :
  handlePortMessage data w
  = (Normal tt, w,
     match data with
     | SwarmMessageData message =>
         (λ l, MessageDelivered l message) <$> messageHandlers (this w)
     | _ => []
     end).
Proof.
  unfold handlePortMessage. destruct data; try done.
  unfold mbind, JS_bind, get. by rewrite for_of_emit.
Qed.

Lemma emitError_run err w :
  emitError err w
  = (Normal tt, w, (λ l, ErrorDelivered l err) <$> errorHandlers (this w)).
Proof.
  unfold emitError, mbind, JS_bind, get. by rewrite for_of_emit.
Qed.

(** What [disconnect()] does to the handshakes when an abort closure is
    installed, and that it installs none. *)
Lemma disconnect_with_handshakeAbort w h :
  handshakeAbort (this w) = Some h →
  completion (disconnect w) = Normal tt
  ∧ calls (disconnect w) = []
  ∧ handshakes (final (disconnect w))
    = alter (settle (Rejected ConnectionAborted)) h
        (alter clearTimeout_ h (handshakes w))
  ∧ handshakeAbort (this (final (disconnect w))) = None
  ∧ _state (this (final (disconnect w))) = Disconnected
  ∧ port (this (final (disconnect w))) = None.
Proof.
  intros Habort. unfold disconnect. sw_run. rewrite Habort. sw_run.
  destruct (port (this w)); sw_run; done.
Qed.
End HandshakeFacts.

Section HandshakeInvariant.
Import Js Types Effects Relay SharedWorker.
Implicit Types (w : World) (h : nat).

Lemma hook_step_live w w' :
  hook_step w w' → abort_hook_live w → abort_hook_live w'.
Proof.
  intros [Hnone|Hsame Hhs|hs Hhs Harmed Hpending Hnew] Hlive h Hh.
  - congruence.
  - rewrite Hhs. apply Hlive. congruence.
  - rewrite Hnew in Hh. injection Hh as <-. exists hs.
    rewrite Hhs. split_and!; [|done..]. by apply list_lookup_middle.
Qed.

Lemma connect_begin_hook_step clientId w :
  hook_step w (final (connect_begin clientId w)).
Proof.
  unfold connect_begin. sw_run.
  destruct (decide (_state (this w) = Connected)); [by apply hook_kept|].
  destruct (SharedWorker_defined w); simpl; [|by apply hook_kept].
  sw_run.
  destruct (if_truthy (sharedBlobUrl w)); sw_run;
    by eapply (hook_installed _ _
                 {| timeout := Armed; delay := 5000; promise := Pending |}).
Qed.

Lemma connect_resume_hook_step h w :
  hook_step w (final (connect_resume h w)).
Proof.
  unfold connect_resume. sw_run.
  destruct (promise <$> handshakes w !! h) as [[| |reason]|]; sw_run;
    try (by apply hook_kept).
  destruct (instanceof_SwarmRelayError reason); by apply hook_kept.
Qed.

Lemma disconnect_hook_step w : hook_step w (final (disconnect w)).
Proof.
  apply hook_dropped. unfold disconnect. sw_run.
  destruct (handshakeAbort (this w)) as [h|] eqn:Habort; sw_run;
    destruct (port (this w)); sw_run; done.
Qed.

Lemma send_hook_step message w : hook_step w (final (send message w)).
Proof.
  unfold send. sw_run. destruct (port (this w)); sw_run; [|by apply hook_kept].
  destruct (decide (_state (this w) ≠ Connected)); by apply hook_kept.
Qed.

Lemma timeout_callback_hook_step h w :
  hook_step w (final (timeout_callback h w)).
Proof.
  unfold timeout_callback. sw_run.
  destruct (timeout <$> handshakes w !! h) as [[| |]|]; sw_run;
    (by apply hook_kept) || (by apply hook_dropped).
Qed.

Lemma port_message_hook_step p data w :
  hook_step w (final (port_message p data w)).
Proof.
  unfold port_message. sw_run.
  destruct (message_ports w !! p) as [q|]; sw_run; [|by apply hook_kept].
  destruct (closed q); sw_run; [by apply hook_kept|].
  destruct (onmessage q) as [|h|]; sw_run; try (by apply hook_kept).
  - unfold handshake_onmessage.
    destruct data; sw_run; try (by apply hook_kept).
    destruct (port (this w)); sw_run; by apply hook_dropped.
  - rewrite handlePortMessage_run. by apply hook_kept.
Qed.

Lemma port_messageerror_hook_step p w :
  hook_step w (final (port_messageerror p w)).
Proof.
  unfold port_messageerror. sw_run.
  destruct (onmessageerror <$> message_ports w !! p) as [[|]|]; sw_run;
    try (by apply hook_kept).
  rewrite emitError_run. by apply hook_kept.
Qed.

Lemma worker_error_hook_step k message w :
  hook_step w (final (worker_error k message w)).
Proof.
  unfold worker_error. sw_run.
  destruct (option_bind _ _ onerror (workers w !! k)); sw_run;
    (by apply hook_kept) || (by apply hook_dropped).
Qed.

Lemma job_hook_step j w : hook_step w (job j w).
Proof.
  destruct j; simpl;
    auto using connect_begin_hook_step, connect_resume_hook_step,
      disconnect_hook_step, send_hook_step, timeout_callback_hook_step,
      port_message_hook_step, port_messageerror_hook_step,
      worker_error_hook_step.
Qed.

(** The invariant holds in every world a fresh transport can reach. *)
Lemma jobs_abort_hook_live js w :
  abort_hook_live w → abort_hook_live (jobs js w).
Proof.
  revert w. induction js as [|j js IH]; intros w Hlive; [done|].
  simpl. apply IH. eapply hook_step_live; [apply job_hook_step | done].
Qed.

Lemma new_abort_hook_live clientId supported :
  abort_hook_live (new clientId supported).
Proof. intros h Hh. discriminate. Qed.
End HandshakeInvariant.

Section HandshakeAbort.
Import Js Types Effects Relay SharedWorker.
Implicit Types (w : World) (h : nat).

(** [disconnect()] aborts the handshake whose abort closure is installed:
    in every world a fresh transport can reach, if [this.handshakeAbort]
    holds the closure of handshake [h], then [h] is outstanding with its
    timer armed, and the one [disconnect()] call cancels the timer, rejects
    the promise with "Connection aborted" and removes the closure; the
    timeout callback can no longer run, and the suspended [connect()]
    rejects with that same error when it resumes. *)
Lemma disconnect_aborts_installed_handshake :
  ∀ (clientId : string) (supported : bool) (js : list Job) (h : nat),
    let w := jobs js (new clientId supported) in
    handshakeAbort (this w) = Some h →
    outstanding h w
    ∧ timeout <$> handshakes w !! h = Some Armed
    ∧ completion (disconnect w) = Normal tt
    ∧ promise <$> handshakes (final (disconnect w)) !! h
      = Some (Rejected ConnectionAborted)
    ∧ timeout <$> handshakes (final (disconnect w)) !! h = Some Cleared
    ∧ handshakeAbort (this (final (disconnect w))) = None
    ∧ timeout_callback h (final (disconnect w))
      = (Normal tt, final (disconnect w), [])
    ∧ completion (connect_resume h (final (disconnect w)))
      = Throw ConnectionAborted.
Proof.
  intros clientId supported js h w Habort.
  destruct (jobs_abort_hook_live js (new clientId supported)
              (new_abort_hook_live clientId supported) h Habort)
    as (hs & Hlookup & Harmed & Hpending).
  fold w in Hlookup.
  destruct (disconnect_with_handshakeAbort w h Habort)
    as (Hdone & _ & Hhs & Hnone & _ & _).
  assert (handshakes (final (disconnect w)) !! h
          = Some {| timeout := Cleared; delay := delay hs;
                    promise := Rejected ConnectionAborted |}) as Hafter.
  { rewrite Hhs, !list_lookup_alter, Hlookup. rewrite !decide_True by done.
    simpl. unfold settle, clearTimeout_. simpl. by rewrite Harmed, Hpending. }
  clear Hhs. remember (final (disconnect w)) as w' eqn:Hw'. clear Hw'.
  unfold outstanding. split_and!.
  - by rewrite Hlookup; simpl; rewrite Hpending.
  - by rewrite Hlookup; simpl; rewrite Harmed.
  - done.
  - by rewrite Hafter.
  - by rewrite Hafter.
  - done.
  - unfold timeout_callback. sw_run. by rewrite Hafter.
  - unfold connect_resume. sw_run. by rewrite Hafter.
Qed.

(** [connect()] installs the abort closure of the handshake it starts. *)
Lemma connect_begin_installs_abort clientId w :
  SharedWorker_defined w = true →
  _state (this w) ≠ Connected →
  let h := length (handshakes w) in
  completion (connect_begin clientId w) = Normal (Handshaking h)
  ∧ handshakeAbort (this (final (connect_begin clientId w))) = Some h
  ∧ handshakes (final (connect_begin clientId w)) !! h
    = Some {| timeout := Armed; delay := 5000; promise := Pending |}.
Proof.
  intros Hsup Hst. unfold connect_begin. sw_run.
  rewrite decide_False by done. rewrite Hsup. sw_run.
  destruct (if_truthy (sharedBlobUrl w)); sw_run;
    (split_and!; [done | done | by apply list_lookup_middle]).
Qed.
End HandshakeAbort.

Section HandshakeFailingInputs.
Import Js Types Effects Relay SharedWorker.

(** [connect('client-1')] on a fresh transport, then [disconnect()] before
    the hub answers: the run C9 has in mind. *)
Example disconnect_during_handshake :
  let w := jobs [Call_connect "client-1"; Call_disconnect]
             (new "client-1" true) in
  handshakes w
  = [{| timeout := Cleared; delay := 5000;
        promise := Rejected ConnectionAborted |}]
  ∧ completion (connect_resume 0 w) = Throw ConnectionAborted.
Proof. split; vm_compute; reflexivity. Qed.

(** C9 at its failing inputs.  (1) [connect()] is called twice before
    either handshake is answered, then [disconnect()]: the second call has
    replaced the abort closure of the first, so the first handshake stays
    pending with its timer armed and is rejected only when the 5000 ms
    timer fires, with the time-out error.  (2) [connect()], [disconnect()]
    and [connect()] are called in one go: the first call's [catch] block
    then runs [cleanup()] and nulls the port of the second handshake, the
    hub's acknowledgement clears the timer and the abort closure and throws
    before [resolve()], and a later [disconnect()] leaves the second
    handshake pending for good. *)
Theorem disconnect_misses_superseded_handshake :
  (let before := jobs [Call_connect "client-1"; Call_connect "client-1"]
                   (new "client-1" true) in
   let after := job Call_disconnect before in
   outstanding 0 before
   ∧ handshakes after
     = [{| timeout := Armed; delay := 5000; promise := Pending |};
        {| timeout := Cleared; delay := 5000;
           promise := Rejected ConnectionAborted |}]
   ∧ outstanding 0 after
   ∧ handshakes (job (Timeout_elapsed 0) after) !! 0
     = Some {| timeout := Fired; delay := 5000;
               promise := Rejected
                 (SwarmRelayError "SharedWorker registration timed out"
                    ConnectionFailed None) |})
  ∧ (let before := jobs [Call_connect "client-1"; Call_disconnect;
                         Call_connect "client-1"; Resume_connect 0;
                         Port_message 1 (SwarmRegistered "client-1")]
                     (new "client-1" true) in
     let after := job Call_disconnect before in
     outstanding 1 before
     ∧ handshakeAbort (this before) = None
     ∧ handshakes after !! 1
       = Some {| timeout := Cleared; delay := 5000; promise := Pending |}
     ∧ outstanding 1 after
     ∧ timeout_callback 1 after = (Normal tt, after, [])).
Proof. split; split_and!; vm_compute; reflexivity. Qed.
End HandshakeFailingInputs.

(** * Further properties *)

(** ** The hub: registration, disconnection and posts *)

Section JsMapMoreFacts.
Import Js.
Context {K V : Type} `{EqDecision K}.
Implicit Types (k : K) (v : V) (m : list (K * V)).

Lemma map_get_delete_ne k k' m :
  k ≠ k' → map_get k' (map_delete k m) = map_get k' m.
Proof.
  intros Hne. induction m as [|[k0 v0] m IH]; simpl; [done|].
  destruct (decide (k0 = k)) as [->|Hk0]; simpl.
  - by rewrite decide_False.
  - destruct (decide (k0 = k')); [done | apply IH].
Qed.

Lemma map_delete_absent k m : map_get k m = None → map_delete k m = m.
Proof.
  induction m as [|[k0 v0] m IH]; simpl; [done|].
  destruct (decide (k0 = k)); [done|]. intros Hget. by rewrite IH.
Qed.

Lemma map_delete_set_absent k v m :
  map_get k m = None → map_delete k (map_set k v m) = m.
Proof.
  induction m as [|[k0 v0] m IH]; simpl.
  - by rewrite decide_True.
  - destruct (decide (k0 = k)) as [->|Hk0]; [done|]. intros Hget. simpl.
    rewrite decide_False by done. by rewrite IH.
Qed.

Lemma map_get_Some_value k v m : map_get k m = Some v → v ∈ m.*2.
Proof.
  intros Hget%map_get_Some_elem_of.
  apply list_elem_of_fmap. by exists (k, v).
Qed.
End JsMapMoreFacts.

Section HubLifecycle.
Import Js Types Worker Samples.




(** X2: whatever event the hub serves, every post it makes goes to a port
    that is in the registry after the event, and is either the
    acknowledgement of the register request just served, carrying its id,
    or the very envelope just received. *)
Theorem hub_posts_acknowledgements_and_received_envelopes_only :
  ∀ (ev : HubEvent) (hub : Hub) (p : MessagePort) (d : ControlMessage),
    (p, d) ∈ (step ev hub).2 →
    p ∈ (ports (step ev hub).1).*2
    ∧ ((∃ cid, ev = OnMessage p (SwarmRegister cid) ∧ d = SwarmRegistered cid)
       ∨ (∃ sender message,
            ev = OnMessage sender (SwarmMessageData message)
            ∧ d = SwarmMessageData message)).
Proof.
  intros [port data|port] hub p d; simpl; [|by intros ?%elem_of_nil].
  destruct data as [cid| | |message|]; simpl;
    try (by intros ?%elem_of_nil).
  - intros [= -> ->]%list_elem_of_singleton. split.
    + eapply map_get_Some_value, map_get_set_eq.
    + left. by exists cid.
  - destruct (if_truthy (clientId hub !! port)); by intros ?%elem_of_nil.
  - destruct (if_truthy (target message)) as [t|]; simpl.
    + destruct (map_get t (ports hub)) as [q|] eqn:Hget; simpl;
        [|by intros ?%elem_of_nil].
      intros [= -> ->]%list_elem_of_singleton. split.
      * by eapply map_get_Some_value.
      * right. by exists port, message.
    + rewrite flat_map_forwardBroadcast.
      intros [[id q] [[= -> ->] [_ Hin]%list_elem_of_filter]]%list_elem_of_fmap.
      split.
      * apply list_elem_of_fmap. by exists (id, q).
      * right. by exists port, message.
Qed.

Lemma hub_posts_acknowledgements_and_received_envelopes_only_witness :
  0 ∈ (ports (step (OnMessage 1 (SwarmMessageData sample_broadcast))
                shell_and_cart).1).*2.
Proof.
  apply (hub_posts_acknowledgements_and_received_envelopes_only
           (OnMessage 1 (SwarmMessageData sample_broadcast)) shell_and_cart 0
           (SwarmMessageData sample_broadcast)).
  vm_compute. left.
Defined.
End HubLifecycle.

Section HubReregistration.
Import Js Types Worker Samples.






End HubReregistration.

(** ** The client: subscribing and unsubscribing *)

Section JsSetMoreFacts.
Import Js.
Context {A : Type} `{EqDecision A}.
Implicit Types (x : A) (s : list A).

Lemma set_delete_absent x s : x ∉ s → set_delete x s = s.
Proof.
  induction s as [|y s IH]; simpl; [done|].
  intros [Hne Hnotin]%not_elem_of_cons.
  rewrite decide_False by done. by rewrite IH.
Qed.

Lemma set_delete_app x s1 s2 :
  set_delete x (s1 ++ s2) = set_delete x s1 ++ set_delete x s2.
Proof.
  induction s1 as [|y s1 IH]; simpl; [done|].
  destruct (decide (y = x)); simpl; by rewrite IH.
Qed.

Lemma set_delete_add x s : set_delete x (set_add x s) = set_delete x s.
Proof.
  unfold set_add. destruct (decide (x ∈ s)); [done|].
  rewrite set_delete_app. simpl. rewrite decide_True by done.
  by rewrite app_nil_r.
Qed.

Lemma set_delete_sublist x s : sublist (set_delete x s) s.
Proof.
  induction s as [|y s IH]; simpl; [done|].
  destruct (decide (y = x)); by constructor.
Qed.

Lemma set_delete_NoDup x s : NoDup s → NoDup (set_delete x s).
Proof. intros Hnd. eapply sublist_NoDup; [exact Hnd | apply set_delete_sublist]. Qed.

Lemma set_add_not_nil x s : set_add x s ≠ [].
Proof.
  unfold set_add. destruct (decide (x ∈ s)) as [Hin|_].
  - intros ->. by apply elem_of_nil in Hin.
  - by destruct s.
Qed.
End JsSetMoreFacts.

Section JsMapEntries.
Import Js.
Context {K V : Type} `{EqDecision K}.
Implicit Types (k : K) (v : V) (m : list (K * V)).

Lemma map_set_same k v m : map_get k m = Some v → map_set k v m = m.
Proof.
  induction m as [|[k0 v0] m IH]; simpl; [done|].
  destruct (decide (k0 = k)) as [->|Hne].
  - by intros [= ->].
  - intros Hget. by rewrite IH.
Qed.

Lemma elem_of_map_set k v m (e : K * V) :
  e ∈ map_set k v m → e = (k, v) ∨ e ∈ m.
Proof.
  induction m as [|[k0 v0] m IH]; simpl.
  - intros ->%list_elem_of_singleton. by left.
  - destruct (decide (k0 = k)) as [->|Hne].
    + intros [->|Hin]%elem_of_cons; [by left | right; by right].
    + intros [->|Hin]%elem_of_cons; [right; by left|].
      destruct (IH Hin) as [->|Hm]; [by left | right; by right].
Qed.

Lemma elem_of_map_delete k m (e : K * V) :
  e ∈ map_delete k m → e.1 ≠ k ∧ e ∈ m.
Proof.
  induction m as [|[k0 v0] m IH]; simpl.
  - by intros ?%elem_of_nil.
  - destruct (decide (k0 = k)) as [->|Hne].
    + intros [Hk Hin]%IH. split; [done | by right].
    + intros [->|Hin]%elem_of_cons; [split; [done | by left]|].
      destruct (IH Hin) as [Hk Hm]. split; [done | by right].
Qed.
End JsMapEntries.

Section Unsubscribing.
Import Js Types Effects Relay Samples.
Context {T : Type} `{!TransportAdapter T}.
Implicit Types (r : SwarmRelay T).

Lemma off_absent ev h r :
  map_get ev (handlers r) = None → off ev h r = (Normal tt, r, []).
Proof. intros Hget. unfold off. js_run. by rewrite Hget. Qed.

Lemma off_present ev h r hs :
  map_get ev (handlers r) = Some hs →
  off ev h r
  = (Normal tt,
     set_handlers
       (if decide (length (set_delete h hs) = 0)
        then map_delete ev (map_set ev (set_delete h hs) (handlers r))
        else map_set ev (set_delete h hs) (handlers r)) r,
     [Logged debug ("Unsubscribed from " +:+ quoted ev) NoArg]).
Proof.
  intros Hget. unfold off. js_run. rewrite Hget. js_run.
  destruct (decide (length (set_delete h hs) = 0)); done.
Qed.

Lemma handlers_on ev h r :
  handlers (final (on ev h r))
  = map_set ev (set_add h (handlers_for ev r)) (handlers r).
Proof. by rewrite on_run. Qed.

(** The table after [on ev h] followed by [off ev h]. *)
Lemma handlers_off_on ev h r :
  handlers (final (off ev h (final (on ev h r))))
  = if decide (length (set_delete h (handlers_for ev r)) = 0)
    then map_delete ev (map_set ev [] (handlers r))
    else map_set ev (set_delete h (handlers_for ev r)) (handlers r).
Proof.
  rewrite (off_present ev h _ (set_add h (handlers_for ev r))).
  - unfold final at 1. simpl. rewrite handlers_on, set_delete_add, !map_set_set.
    destruct (decide (length (set_delete h (handlers_for ev r)) = 0)) as [Hlen|];
      [|done].
    apply nil_length_inv in Hlen. by rewrite Hlen.
  - rewrite handlers_on. apply map_get_set_eq.
Qed.
End Unsubscribing.

Section UnsubscribingProperties.
Import Js Types Effects Relay Usage Samples.

(** X6: [on(event, h)] followed by [off(event, h)] (which is also what the
    cleanup function returned by [on] does) leaves [h] unsubscribed from the
    event, so no envelope of that event calls [h] as an event handler; the
    sets of other events and the wildcard set are untouched.  If [h] was
    not subscribed to the event before and the event's set was not an empty
    one, the whole table is back exactly as it was: the key that [on]
    created is removed again. *)
Theorem on_then_off_unsubscribes_and_restores :
  ∀ (T : Type) (adapter : TransportAdapter T) (r : SwarmRelay T)
    (ev : string) (h : HandlerRef),
    let r' := final (off ev h (final (on ev h r))) in
    (h ∉ handlers_for ev r')
    ∧ (∀ behaviour message p m,
         event message = ev →
         HandlerCalled h p m ∉ calls (handleMessage behaviour message r'))
    ∧ (∀ ev', ev' ≠ ev → handlers_for ev' r' = handlers_for ev' r)
    ∧ wildcardHandlers r' = wildcardHandlers r
    ∧ (h ∉ handlers_for ev r → map_get ev (handlers r) ≠ Some [] →
         handlers r' = handlers r).
Proof.
  intros T adapter r ev h r'.
  assert (h ∉ handlers_for ev r') as Hgone.
  { unfold handlers_for at 1. subst r'. rewrite handlers_off_on.
    destruct (decide (length (set_delete h (handlers_for ev r)) = 0)).
    - rewrite map_get_delete_eq. apply not_elem_of_nil.
    - rewrite map_get_set_eq. apply not_elem_of_set_delete. }
  split_and!.
  - exact Hgone.
  - intros behaviour message p m Hev Hin. subst ev.
    assert (HandlerCalled h p m
              ∈ invocations (calls (handleMessage behaviour message r')))
      as Hinv by (apply list_elem_of_filter; by split).
    rewrite invocations_handleMessage in Hinv.
    apply elem_of_app in Hinv as [Hw|He].
    + apply list_elem_of_fmap in Hw as [h' [Heq _]]. discriminate.
    + apply list_elem_of_fmap in He as [h' [Heq Hh']].
      injection Heq as -> _ _. done.
  - intros ev' Hne. unfold handlers_for. subst r'. rewrite handlers_off_on.
    destruct (decide (length (set_delete h (handlers_for ev r)) = 0)).
    + rewrite map_get_delete_ne by done. by rewrite map_get_set_ne.
    + by rewrite map_get_set_ne.
  - subst r'.
    destruct (map_get ev (handlers (final (on ev h r)))) as [hs|] eqn:Hget.
    + rewrite (off_present _ _ _ hs Hget). unfold final at 1. simpl.
      by rewrite on_run.
    + rewrite off_absent by done. unfold final at 1. simpl. by rewrite on_run.
  - intros Hnot Hnonempty. subst r'. rewrite handlers_off_on.
    rewrite set_delete_absent by done. unfold handlers_for in *.
    destruct (map_get ev (handlers r)) as [hs|] eqn:Hget; simpl.
    + destruct (decide (length hs = 0)) as [Hlen|_].
      * apply nil_length_inv in Hlen. by subst hs.
      * by apply map_set_same.
    + by apply map_delete_set_absent.
Qed.

(** X6 on the relay with handlers 1 and 2 on [user:login]: handler 5 is
    subscribed and unsubscribed again, on [user:login] and on a new event. *)
Lemma on_then_off_unsubscribes_and_restores_witness :
  handlers (final (off "user:login" 5 (final (on "user:login" 5 subscribed_relay))))
  = handlers subscribed_relay
  ∧ handlers (final (off "cart:update" 5
                       (final (on "cart:update" 5 subscribed_relay))))
    = handlers subscribed_relay
  ∧ HandlerCalled 1 "{userId:'u1'}" login
      ∉ calls (handleMessage quiet login
                 (final (off "user:login" 1
                           (final (on "user:login" 1 subscribed_relay))))).
Proof.
  pose proof (on_then_off_unsubscribes_and_restores _ _ subscribed_relay
                "user:login" 5) as (_ & _ & _ & _ & Hsame).
  pose proof (on_then_off_unsubscribes_and_restores _ _ subscribed_relay
                "cart:update" 5) as (_ & _ & _ & _ & Hnew).
  pose proof (on_then_off_unsubscribes_and_restores _ _ subscribed_relay
                "user:login" 1) as (_ & Hquiet & _).
  split_and!.
  - apply Hsame; [by_compute | discriminate].
  - apply Hnew; [by_compute | discriminate].
  - apply Hquiet. reflexivity.
Defined.
End UnsubscribingProperties.

Section SubscriptionTable.
Import Js Types Effects Relay Usage Samples.
Context {T : Type} `{!TransportAdapter T}.
Implicit Types (r : SwarmRelay T).

Lemma table_ok_handlers_for ev r :
  table_ok r → NoDup (handlers_for ev r).
Proof.
  intros (_ & _ & Hsets). unfold handlers_for.
  destruct (map_get ev (handlers r)) as [hs|] eqn:Hget; simpl.
  - destruct (Hsets ev hs) as [Hnd _]; [by apply map_get_Some_elem_of | done].
  - apply NoDup_nil_2.
Qed.

Lemma on_table_ok ev h r : table_ok r → table_ok (final (on ev h r)).
Proof.
  intros Hok. pose proof (table_ok_handlers_for ev r Hok) as Hnd.
  destruct Hok as (Hw & Hkeys & Hsets).
  rewrite on_run. unfold final. simpl. split_and!; simpl.
  - done.
  - by apply map_set_NoDup.
  - intros ev' hs [[= -> ->]|Hin]%elem_of_map_set.
    + split; [by apply set_add_NoDup | apply set_add_not_nil].
    + by eapply Hsets.
Qed.

Lemma off_table_ok ev h r : table_ok r → table_ok (final (off ev h r)).
Proof.
  intros (Hw & Hkeys & Hsets).
  destruct (map_get ev (handlers r)) as [hs|] eqn:Hget.
  - rewrite (off_present ev h r hs Hget). unfold final. simpl.
    destruct (Hsets ev hs (map_get_Some_elem_of _ _ _ Hget)) as [Hnd _].
    destruct (decide (length (set_delete h hs) = 0)) as [Hlen|Hlen];
      split_and!; simpl; try done.
    + by apply map_delete_NoDup, map_set_NoDup.
    + intros ev' hs' [Hne [[= -> ->]|Hin]%elem_of_map_set]%elem_of_map_delete;
        [done | by eapply Hsets].
    + by apply map_set_NoDup.
    + intros ev' hs' [[= -> ->]|Hin]%elem_of_map_set; [|by eapply Hsets].
      split; [by apply set_delete_NoDup|]. intros Hnil. by rewrite Hnil in Hlen.
  - by rewrite off_absent.
Qed.

Lemma subscription_table_ok c r :
  table_ok r → table_ok (final (subscription c r)).
Proof.
  intros Hok. destruct c as [ev h|ev h|h|h]; simpl.
  - by apply on_table_ok.
  - by apply off_table_ok.
  - destruct Hok as (Hw & Hkeys & Hsets). split_and!; simpl; try done.
    by apply set_add_NoDup.
  - destruct Hok as (Hw & Hkeys & Hsets). split_and!; simpl; try done.
    by apply set_delete_NoDup.
Qed.

Lemma subscriptions_table_ok cs r :
  table_ok r → table_ok (subscriptions cs r).
Proof.
  revert r. induction cs as [|c cs IH]; intros r Hok; [done|].
  simpl. by apply IH, subscription_table_ok.
Qed.

Lemma new_table_ok (options : SwarmRelayOptions T) :
  table_ok (Relay.new options).
Proof.
  split_and!; simpl; [apply NoDup_nil_2 | apply NoDup_nil_2 |].
  by intros ev hs ?%elem_of_nil.
Qed.
End SubscriptionTable.

Section SubscriptionTableProperty.
Import Js Types Effects Relay Usage Samples.

(** X7: whatever sequence of [on], [off], [onAny] and [offAny] calls a
    new relay receives, no handler is ever twice in a set, no event twice
    in the map, and no empty set is left in the map; so a dispatch calls no
    handler twice in the same role. *)
Theorem subscriptions_keep_the_table_well_formed :
  ∀ (T : Type) (adapter : TransportAdapter T) (options : SwarmRelayOptions T)
    (cs : list Subscription) (behaviour : HandlerBehaviour)
    (message : SwarmMessage),
    let r := subscriptions cs (Relay.new options) in
    table_ok r
    ∧ NoDup (invocations (calls (handleMessage behaviour message r))).
Proof.
  intros T adapter options cs behaviour message r.
  assert (table_ok r) as Hok
    by apply subscriptions_table_ok, new_table_ok.
  split; [exact Hok|].
  rewrite invocations_handleMessage. apply NoDup_app. split_and!.
  - apply NoDup_fmap_2_strong; [|by destruct Hok].
    intros h1 h2 _ _ Heq. by injection Heq.
  - intros o [h1 [-> _]]%list_elem_of_fmap [h2 [Heq _]]%list_elem_of_fmap.
    discriminate.
  - apply NoDup_fmap_2_strong; [|by apply table_ok_handlers_for].
    intros h1 h2 _ _ Heq. by injection Heq.
Qed.

Example subscribing_twice_calls_once :
  let r := subscriptions
             [On "user:login" 1; On "user:login" 1; OnAny 7; OnAny 7;
              On "user:logout" 3; Off "user:logout" 3]
             test_relay in
  handlers r = [("user:login", [1])]
  ∧ wildcardHandlers r = [7]
  ∧ invocations (calls (handleMessage quiet login r))
    = [WildcardCalled 7 "user:login" "{userId:'u1'}" login;
       HandlerCalled 1 "{userId:'u1'}" login].
Proof. split_and!; reflexivity. Qed.
End SubscriptionTableProperty.

(** ** The client: failed connections and the mock transport *)

Section ConnectFailure.
Import Js Types Effects Relay Usage Samples.
Context {T : Type} `{!TransportAdapter T}.
Implicit Types (r : SwarmRelay T).

Lemma connect_resume_rejected reason r :
  connect_resume (Throw reason) r
  = (Throw (relayError_of reason), set__state Error r,
     (if onStateChange r then [StateChanged Error] else [])
     ++ Logged error "Connection failed" (ErrorArg (relayError_of reason))
        :: (if onErrorCallback r then [ErrorReported (relayError_of reason)]
            else [])).
Proof.
  destruct r as [cid t osc oec hs ws st].
  unfold connect_resume, setState, relayError_of. js_run. simpl.
  destruct osc, oec; done.
Qed.
End ConnectFailure.

Section ConnectFailureProperty.
Import Js Types Effects Relay Usage Samples.

(** X8: when the transport's [connect] promise is rejected, [connect()]
    ends in state [Error], rejects with the reason itself if it is a
    [SwarmRelayError] and with a [ConnectionFailed] error wrapping it
    otherwise, and [options.onError], when given, is called exactly once
    with that same error; subscriptions and transport are left alone.  From
    [Error] a new [connect()] is a real attempt: it calls the transport's
    [connect] again. *)
Theorem rejected_connect_reports_and_can_be_retried :
  ∀ (T : Type) (adapter : TransportAdapter T) (r : SwarmRelay T)
    (reason : JsError),
    let failure := connect_resume (Throw reason) r in
    completion failure = Throw (relayError_of reason)
    ∧ _state (final failure) = Error
    ∧ handlers (final failure) = handlers r
    ∧ wildcardHandlers (final failure) = wildcardHandlers r
    ∧ transport (final failure) = transport r
    ∧ error_reports (calls failure)
      = (if onErrorCallback r then [relayError_of reason] else [])
    ∧ state_changes (calls failure)
      = (if onStateChange r then [Error] else [])
    ∧ (instanceof_SwarmRelayError reason = true → relayError_of reason = reason)
    ∧ (instanceof_SwarmRelayError reason = false →
         instanceof_Error reason = true →
         relayError_of reason
         = SwarmRelayError "Connection failed" ConnectionFailed (Some reason))
    ∧ transport_calls (calls (connect_begin (final failure)))
      = [TonMessage RelayHandleMessage; TonError RelayHandleError;
         Tconnect (clientId r)].
Proof.
  intros T adapter r reason failure. subst failure.
  rewrite connect_resume_rejected.
  change (completion (?c, ?s, ?o)) with c.
  change (final (?c, ?s, ?o)) with s.
  change (calls (Throw (relayError_of reason), ?s, ?o)) with o.
  split_and!; try done.
  - destruct (onStateChange r), (onErrorCallback r); done.
  - destruct (onStateChange r), (onErrorCallback r); done.
  - intros Hsre. unfold relayError_of. by rewrite Hsre.
  - intros Hsre Herr. unfold relayError_of. by rewrite Hsre, Herr.
  - assert (_state (set__state Error r) ≠ Connected) as Hne by done.
    by destruct (connect_begin_not_connected _ Hne) as (_ & _ & _ & ->).
Qed.

Example failed_connect_over_mock :
  let refused :=
    set_transport
      (Mock.set_connectError (Some (PlainError "Connection refused"))
         (transport test_relay)) test_relay in
  completion (Relay.connect refused)
  = Throw (SwarmRelayError "Connection failed" ConnectionFailed
             (Some (PlainError "Connection refused")))
  ∧ _state (final (Relay.connect refused)) = Error
  ∧ state_changes (calls (Relay.connect refused)) = [Connecting; Error]
  ∧ error_reports (calls (Relay.connect refused))
    = [SwarmRelayError "Connection failed" ConnectionFailed
         (Some (PlainError "Connection refused"))].
Proof. split_and!; reflexivity. Qed.

Lemma rejected_connect_reports_and_can_be_retried_witness :
  relayError_of (SwarmRelayError "Connection aborted" ConnectionFailed None)
  = SwarmRelayError "Connection aborted" ConnectionFailed None
  ∧ relayError_of (PlainError "Connection refused")
    = SwarmRelayError "Connection failed" ConnectionFailed
        (Some (PlainError "Connection refused")).
Proof.
  pose proof (rejected_connect_reports_and_can_be_retried _ _ test_relay
                (SwarmRelayError "Connection aborted" ConnectionFailed None))
    as (_ & _ & _ & _ & _ & _ & _ & Hsame & _).
  pose proof (rejected_connect_reports_and_can_be_retried _ _ test_relay
                (PlainError "Connection refused"))
    as (_ & _ & _ & _ & _ & _ & _ & _ & Hwrap & _).
  split; [by apply Hsame | by apply Hwrap].
Defined.
End ConnectFailureProperty.

Section MockInStep.
Import Js Types Effects Relay Usage Samples.
Implicit Types (r : SwarmRelay Mock.MockTransportAdapter).

Lemma subscription_keeps_state_and_transport
    (c : Subscription) r :
  _state (final (subscription c r)) = _state r
  ∧ transport (final (subscription c r)) = transport r.
Proof.
  destruct c as [ev h|ev h|h|h]; simpl.
  - by rewrite on_run.
  - destruct (map_get ev (handlers r)) as [hs|] eqn:Hget.
    + by rewrite (off_present ev h r hs Hget).
    + by rewrite off_absent.
  - done.
  - done.
Qed.

Lemma test_call_in_step r c : in_step r → in_step (test_call r c).
Proof.
  intros (Hst & Hnc & Hmh & Heh).
  destruct c as [e| | |s]; simpl.
  - done.
  - destruct r as [cid t osc oec hs ws st].
    destruct t as [mh eh tst tcid sent cc dc ce se]. simpl in *. subst.
    unfold in_step, Relay.connect, connect_begin, connect_resume, setState.
    destruct st; try done; destruct ce, osc, oec; vm_compute; split_and!;
      (done || discriminate).
  - destruct r as [cid t osc oec hs ws st].
    destruct t as [mh eh tst tcid sent cc dc ce se]. simpl in *. subst.
    unfold in_step, Relay.disconnect, setState.
    destruct st; try done; destruct osc; vm_compute; split_and!;
      (done || discriminate).
  - destruct (subscription_keeps_state_and_transport s r) as [Hs Ht].
    unfold in_step. by rewrite Hs, Ht.
Qed.
End MockInStep.

Section MockInStepProperty.
Import Js Types Effects Relay Usage Samples.
Implicit Types (r : SwarmRelay Mock.MockTransportAdapter).

Lemma test_calls_in_step cs r : in_step r → in_step (test_calls cs r).
Proof.
  revert r. induction cs as [|c cs IH]; intros r Hin; [done|].
  simpl. by apply IH, test_call_in_step.
Qed.

Lemma handleError_run {T} `{!TransportAdapter T} err (r : SwarmRelay T) :
  handleError err r
  = (Normal tt, r,
     Logged error "Transport error" (ErrorArg err)
     :: (if onErrorCallback r then [ErrorReported err] else [])).
Proof. unfold handleError. js_run. by destruct (onErrorCallback r). Qed.

(** X9: over the mock transport, whatever a test does with a new relay
    (setting [connectError], awaiting [connect()], calling [disconnect()],
    subscribing and unsubscribing), the relay and the transport agree on
    the state, the relay is never left in [Connecting], and the relay's two
    listeners are registered once while the state is not [Disconnected] and
    not at all while it is.  So a simulated message is dispatched by the
    relay exactly once in the first case, a retry after a failed connection
    included, and reaches nothing in the second; the same holds for a
    simulated error. *)
Theorem relay_and_mock_transport_stay_in_step :
  ∀ (id : string) (withStateChange withError : bool) (cs : list TestCall)
    (behaviour : HandlerBehaviour) (message : SwarmMessage) (err : JsError),
    let r := test_calls cs
               (Relay.new {| opt_clientId := id; opt_transport := Mock.new;
                             opt_onStateChange := withStateChange;
                             opt_onError := withError |}) in
    in_step r
    ∧ Mock.simulateMessage behaviour message r
      = (if decide (_state r = Disconnected) then (Normal tt, r, [])
         else handleMessage behaviour message r)
    ∧ Mock.simulateError err r
      = (if decide (_state r = Disconnected) then (Normal tt, r, [])
         else handleError err r).
Proof.
  intros id withStateChange withError cs behaviour message err r.
  assert (in_step r) as Hin.
  { apply test_calls_in_step. split_and!; done. }
  split; [exact Hin|].
  destruct Hin as (_ & _ & Hmh & Heh).
  split.
  - unfold Mock.simulateMessage. unfold mbind at 1, JS_bind at 1, Effects.get.
    rewrite Hmh. destruct (decide (_state r = Disconnected)); [done|].
    simpl. unfold mbind, JS_bind. rewrite handleMessage_run. simpl.
    by rewrite app_nil_r.
  - unfold Mock.simulateError. unfold mbind at 1, JS_bind at 1, Effects.get.
    rewrite Heh. destruct (decide (_state r = Disconnected)); [done|].
    simpl. unfold mbind, JS_bind. rewrite handleError_run. simpl.
    by rewrite app_nil_r.
Qed.

Example retry_after_failed_connect_dispatches_once :
  let r := test_calls
             [Subscribe (On "user:login" 1);
              SetConnectError (Some (PlainError "Connection refused"));
              Connect;
              SetConnectError None;
              Connect]
             test_relay in
  _state r = Connected
  ∧ Mock.messageHandlers (transport r) = [RelayHandleMessage]
  ∧ invocations (calls (Mock.simulateMessage quiet login r))
    = [HandlerCalled 1 "{userId:'u1'}" login].
Proof. split_and!; reflexivity. Qed.
End MockInStepProperty.

(** ** The SharedWorker transport: handshake outcomes *)

Section HandshakeStart.
Import Js Types Effects Relay SharedWorker.
Implicit Types (w : World) (h : nat).

Lemma alter_at_end {A} (f : A → A) (l : list A) (x : A) :
  alter f (length l) (l ++ [x]) = l ++ [f x].
Proof. induction l as [|y l IH]; [done|]. csimpl. by f_equal. Qed.

(** The world [connect(clientId)] leaves when it starts a handshake. *)
Lemma connect_begin_world clientId w :
  SharedWorker_defined w = true →
  _state (this w) ≠ Connected →
  let w1 := final (connect_begin clientId w) in
  let h := length (handshakes w) in
  let p := length (message_ports w) in
  let k := length (workers w) in
  connect_begin clientId w = (Normal (Handshaking h), w1, [])
  ∧ handshakes w1
    = handshakes w ++ [{| timeout := Armed; delay := 5000; promise := Pending |}]
  ∧ message_ports w1
    = message_ports w
      ++ [{| onmessage := onmessage_handshake h; onmessageerror := true;
             started := true; closed := false;
             posted := [SwarmRegister clientId] |}]
  ∧ (∃ url, workers w1
            = workers w
              ++ [{| worker_url := url; worker_port := p; onerror := Some h |}])
  ∧ this w1
    = {| worker := Some k; port := Some p;
         messageHandlers := messageHandlers (this w);
         errorHandlers := errorHandlers (this w);
         _state := Connecting; handshakeAbort := Some h;
         clientId := SharedWorker.clientId (this w) |}.
Proof.
  intros Hsup Hst. unfold connect_begin. sw_run.
  rewrite decide_False by done. rewrite Hsup. sw_run.
  destruct (if_truthy (sharedBlobUrl w)) as [url|]; sw_run;
    rewrite ?alter_at_end; simpl; rewrite ?alter_at_end; simpl;
    (split_and!; [done | done | done | by eexists | done]).
Qed.

Lemma lookup_alter_same {A} (f : A → A) (l : list A) (i : nat) :
  alter f i l !! i = f <$> l !! i.
Proof. rewrite list_lookup_alter. by rewrite decide_True. Qed.

(** The same, as what later events find when they look the new objects
    up. *)
Lemma connect_begin_started clientId w :
  SharedWorker_defined w = true →
  _state (this w) ≠ Connected →
  let w1 := final (connect_begin clientId w) in
  let h := length (handshakes w) in
  let p := length (message_ports w) in
  let k := length (workers w) in
  completion (connect_begin clientId w) = Normal (Handshaking h)
  ∧ calls (connect_begin clientId w) = []
  ∧ handshakes w1 !! h
    = Some {| timeout := Armed; delay := 5000; promise := Pending |}
  ∧ message_ports w1 !! p
    = Some {| onmessage := onmessage_handshake h; onmessageerror := true;
              started := true; closed := false;
              posted := [SwarmRegister clientId] |}
  ∧ (workers w1 !! k ≫= onerror) = Some h
  ∧ this w1
    = {| worker := Some k; port := Some p;
         messageHandlers := messageHandlers (this w);
         errorHandlers := errorHandlers (this w);
         _state := Connecting; handshakeAbort := Some h;
         clientId := SharedWorker.clientId (this w) |}.
Proof.
  intros Hsup Hst w1 h p k.
  destruct (connect_begin_world clientId w Hsup Hst)
    as (Hrun & Hhs & Hports & [url Hworkers] & Hthis).
  fold w1 h p k in Hrun, Hhs, Hports, Hworkers, Hthis.
  split_and!.
  - by rewrite Hrun.
  - by rewrite Hrun.
  - rewrite Hhs. by apply list_lookup_middle.
  - rewrite Hports. by apply list_lookup_middle.
  - rewrite Hworkers. by rewrite (list_lookup_middle _ _ _ k).
  - done.
Qed.
End HandshakeStart.


Section HandshakeOutcomes.
Import Js Types Effects Relay SharedWorker.
Implicit Types (w : World) (h : nat).


End HandshakeOutcomes.

Section HandshakeFailures.
Import Js Types Effects Relay SharedWorker.
Implicit Types (w : World) (h : nat).

(** X11: when the 5 s timer of the handshake fires first, the handshake's
    promise is rejected with ["SharedWorker registration timed out"]
    ([ConnectionFailed]) and [connect] rejects with that very error; the
    transport ends in state [Error] with port, worker and both listener
    sets cleared, while the port object itself is neither closed nor told
    to disconnect.  An acknowledgement that arrives afterwards throws a
    [TypeError] inside the port's handler and changes neither the
    transport nor the outcome of the handshake. *)
Theorem timed_out_handshake_fails_the_connect :
  ∀ (clientId echoed : string) (w : World),
    SharedWorker_defined w = true →
    _state (this w) ≠ Connected →
    let h := length (handshakes w) in
    let p := length (message_ports w) in
    let timed_out :=
      SwarmRelayError "SharedWorker registration timed out"
        ConnectionFailed None in
    let w1 := final (connect_begin clientId w) in
    let w2 := final (timeout_callback h w1) in
    let w3 := final (connect_resume h w2) in
    let w4 := final (port_message p (SwarmRegistered echoed) w3) in
    handshakes w2 !! h
    = Some {| timeout := Fired; delay := 5000; promise := Rejected timed_out |}
    ∧ handshakeAbort (this w2) = None
    ∧ _state (this w2) = Connecting
    ∧ completion (connect_resume h w2) = Throw timed_out
    ∧ this w3
      = {| worker := None; port := None; messageHandlers := [];
           errorHandlers := []; _state := Error; handshakeAbort := None;
           clientId := SharedWorker.clientId (this w) |}
    ∧ message_ports w3 !! p
      = Some {| onmessage := onmessage_handshake h; onmessageerror := true;
                started := true; closed := false;
                posted := [SwarmRegister clientId] |}
    ∧ completion (port_message p (SwarmRegistered echoed) w3) = Throw TypeError
    ∧ this w4 = this w3
    ∧ handshakes w4 !! h = handshakes w2 !! h
    ∧ completion (connect_resume h w4) = Throw timed_out.
Proof.
  intros clientId echoed w Hsup Hst h p timed_out w1 w2 w3 w4.
  destruct (connect_begin_started clientId w Hsup Hst)
    as (_ & _ & Hh & Hp & _ & Hthis).
  fold w1 h p in Hh, Hp, Hthis.
  clearbody w1.
  assert (w2 = with_handshakes (alter (settle (Rejected timed_out)) h)
                 (with_this (set_handshakeAbort None)
                    (with_handshakes (alter fire h) w1))) as Hw2.
  { subst w2. unfold timeout_callback. sw_run. rewrite Hh. by sw_run. }
  assert (handshakes w2 !! h
          = Some {| timeout := Fired; delay := 5000;
                    promise := Rejected timed_out |}) as Hh2.
  { rewrite Hw2. simpl. rewrite !lookup_alter_same, Hh. done. }
  assert (connect_resume h w2
          = (Throw timed_out,
             with_this (λ t, set_errorHandlers []
                          (set_messageHandlers []
                             (set_worker None (set_port None
                                (set__state Error t))))) w2, [])) as Hres.
  { unfold connect_resume. sw_run. rewrite Hh2. by sw_run. }
  assert (w3 = with_this (λ t, set_errorHandlers []
                          (set_messageHandlers []
                             (set_worker None (set_port None
                                (set__state Error t))))) w2) as Hw3.
  { subst w3. by rewrite Hres. }
  assert (message_ports w3 !! p
      = Some {| onmessage := onmessage_handshake h; onmessageerror := true;
                started := true; closed := false;
                posted := [SwarmRegister clientId] |}) as Hp3.
  { by rewrite Hw3, Hw2. }
  assert (port (this w3) = None) as Hport3 by (by rewrite Hw3).
  assert (handshakeAbort (this w3) = None) as Habort3 by (by rewrite Hw3, Hw2).
  assert (handshakes w3 !! h = handshakes w2 !! h) as Hh3 by (by rewrite Hw3).
  assert (port_message p (SwarmRegistered echoed) w3
          = (Throw TypeError,
             with_this (set_handshakeAbort None)
               (with_handshakes (alter clearTimeout_ h) w3), [])) as Hlate.
  { unfold port_message. sw_run. rewrite Hp3. sw_run.
    unfold handshake_onmessage. sw_run. rewrite Hport3. by sw_run. }
  assert (handshakes w4 !! h = handshakes w2 !! h) as Hh4.
  { subst w4. rewrite Hlate. simpl. rewrite lookup_alter_same, Hh3, Hh2. done. }
  clearbody w2 w3.
  split_and!.
  - done.
  - by rewrite Hw2.
  - rewrite Hw2. simpl. by rewrite Hthis.
  - by rewrite Hres.
  - rewrite Hw3, Hw2. simpl. by rewrite Hthis.
  - done.
  - by rewrite Hlate.
  - subst w4. rewrite Hlate. simpl. destruct (this w3). simpl in *. by subst.
  - done.
  - unfold connect_resume. sw_run. rewrite Hh4, Hh2. by sw_run.
Qed.

Lemma timed_out_handshake_fails_the_connect_witness :
  let w := new "shell" true in
  let timed_out :=
    SwarmRelayError "SharedWorker registration timed out"
      ConnectionFailed None in
  completion
    (connect_resume 0 (final (timeout_callback 0 (final (connect_begin "shell" w)))))
  = Throw timed_out.
Proof.
  intros w timed_out.
  exact (proj1 (proj2 (proj2 (proj2
    (timed_out_handshake_fails_the_connect "shell" "shell" w eq_refl
       ltac:(discriminate)))))).
Defined.

(** X12: an [error] event of the worker during the handshake clears the
    timer, drops the abort closure, sets the state to [Error] at once and
    rejects the handshake with ["SharedWorker error: <message or unknown>"]
    ([TransportError]) without telling any error listener; [connect] then
    rejects with that same error, cleans the transport up, and the timer
    never fires. *)
Theorem worker_error_fails_the_connect :
  ∀ (clientId : string) (message : option string) (w : World),
    SharedWorker_defined w = true →
    _state (this w) ≠ Connected →
    let h := length (handshakes w) in
    let k := length (workers w) in
    let err :=
      SwarmRelayError ("SharedWorker error: " +:+ default "unknown" message)
        TransportError None in
    let w1 := final (connect_begin clientId w) in
    let w2 := final (worker_error k message w1) in
    let w3 := final (connect_resume h w2) in
    handshakes w2 !! h
    = Some {| timeout := Cleared; delay := 5000; promise := Rejected err |}
    ∧ _state (this w2) = Error
    ∧ handshakeAbort (this w2) = None
    ∧ calls (worker_error k message w1) = []
    ∧ completion (connect_resume h w2) = Throw err
    ∧ this w3
      = {| worker := None; port := None; messageHandlers := [];
           errorHandlers := []; _state := Error; handshakeAbort := None;
           clientId := SharedWorker.clientId (this w) |}
    ∧ timeout_callback h w3 = (Normal tt, w3, []).
Proof.
  intros clientId message w Hsup Hst h k err w1 w2 w3.
  destruct (connect_begin_started clientId w Hsup Hst)
    as (_ & _ & Hh & _ & Hk & Hthis).
  fold w1 h k in Hh, Hk, Hthis.
  clearbody w1.
  assert (worker_error k message w1
          = (Normal tt,
             with_handshakes (alter (settle (Rejected err)) h)
               (with_this (set__state Error)
                  (with_this (set_handshakeAbort None)
                     (with_handshakes (alter clearTimeout_ h) w1))), []))
    as Hrun.
  { unfold worker_error. sw_run.
    change (option_bind _ _ onerror (workers w1 !! k))
      with (workers w1 !! k ≫= onerror).
    rewrite Hk. by sw_run. }
  assert (handshakes w2 !! h
          = Some {| timeout := Cleared; delay := 5000;
                    promise := Rejected err |}) as Hh2.
  { subst w2. rewrite Hrun. simpl. rewrite !lookup_alter_same, Hh. done. }
  assert (connect_resume h w2
          = (Throw err,
             with_this (λ t, set_errorHandlers []
                          (set_messageHandlers []
                             (set_worker None (set_port None
                                (set__state Error t))))) w2, [])) as Hres.
  { unfold connect_resume. sw_run. rewrite Hh2. by sw_run. }
  split_and!.
  - done.
  - subst w2. by rewrite Hrun.
  - subst w2. by rewrite Hrun.
  - by rewrite Hrun.
  - by rewrite Hres.
  - subst w3. rewrite Hres. subst w2. rewrite Hrun. simpl. by rewrite Hthis.
  - unfold timeout_callback. sw_run.
    replace (handshakes w3) with (handshakes w2)
      by (subst w3; by rewrite Hres).
    rewrite Hh2. by sw_run.
Qed.

Lemma worker_error_fails_the_connect_witness :
  let w := new "shell" true in
  completion
    (connect_resume 0
       (final (worker_error 0 None (final (connect_begin "shell" w)))))
  = Throw (SwarmRelayError "SharedWorker error: unknown" TransportError None).
Proof.
  intros w.
  exact (proj1 (proj2 (proj2 (proj2 (proj2
    (worker_error_fails_the_connect "shell" None w eq_refl
       ltac:(discriminate))))))).
Defined.
End HandshakeFailures.

Section ConnectedTransport.
Import Js Types Effects Relay SharedWorker.
Implicit Types (w : World) (h : nat).

(** The world after [connect(clientId)], the hub's acknowledgement and the
    rest of [connect]. *)
Lemma connect_acknowledged_world clientId echoed w :
  SharedWorker_defined w = true →
  _state (this w) ≠ Connected →
  let h := length (handshakes w) in
  let p := length (message_ports w) in
  let k := length (workers w) in
  let w1 := final (connect_begin clientId w) in
  let w2 := final (port_message p (SwarmRegistered echoed) w1) in
  let w3 := final (connect_resume h w2) in
  calls (port_message p (SwarmRegistered echoed) w1) = []
  ∧ calls (connect_resume h w2) = []
  ∧ message_ports w3 !! p
    = Some {| onmessage := onmessage_handlePortMessage; onmessageerror := true;
              started := true; closed := false;
              posted := [SwarmRegister clientId] |}
  ∧ this w3
    = {| worker := Some k; port := Some p;
         messageHandlers := messageHandlers (this w);
         errorHandlers := errorHandlers (this w);
         _state := Connected; handshakeAbort := None;
         clientId := SharedWorker.clientId (this w) |}.
Proof.
  intros Hsup Hst h p k w1 w2 w3.
  destruct (connect_begin_started clientId w Hsup Hst)
    as (_ & _ & Hh & Hp & _ & Hthis).
  fold w1 h p k in Hh, Hp, Hthis.
  clearbody w1.
  assert (port_message p (SwarmRegistered echoed) w1
          = (Normal tt,
             with_handshakes (alter (settle Fulfilled) h)
               (with_ports (alter (set_onmessage onmessage_handlePortMessage) p)
                  (with_this (set_handshakeAbort None)
                     (with_handshakes (alter clearTimeout_ h) w1))), []))
    as Hack.
  { unfold port_message. sw_run. rewrite Hp. sw_run.
    unfold handshake_onmessage. sw_run. rewrite Hthis. sw_run. done. }
  assert (handshakes w2 !! h
          = Some {| timeout := Cleared; delay := 5000; promise := Fulfilled |})
    as Hh2.
  { subst w2. rewrite Hack. simpl. rewrite !lookup_alter_same, Hh. done. }
  assert (connect_resume h w2
          = (Normal (Some tt), with_this (set__state Connected) w2, []))
    as Hres.
  { unfold connect_resume. sw_run. rewrite Hh2. sw_run. done. }
  split_and!.
  - by rewrite Hack.
  - by rewrite Hres.
  - subst w3. rewrite Hres. subst w2. rewrite Hack. simpl.
    rewrite lookup_alter_same, Hp. done.
  - subst w3. rewrite Hres. subst w2. rewrite Hack. simpl.
    by rewrite Hthis.
Qed.

Lemma port_message_handlePortMessage p q data w :
  message_ports w !! p = Some q →
  closed q = false →
  onmessage q = onmessage_handlePortMessage →
  port_message p data w
  = (Normal tt, w,
     match data with
     | SwarmMessageData message =>
         (λ l, MessageDelivered l message) <$> messageHandlers (this w)
     | _ => []
     end).
Proof.
  intros Hq Hclosed Hon. unfold port_message.
  cbv beta iota zeta delta [mbind JS_bind get]. rewrite Hq, Hclosed, Hon.
  by rewrite handlePortMessage_run.
Qed.

(** X13: while the handshake is in progress every message on the port
    other than the acknowledgement is dropped without a trace, and the
    acknowledgement and the rest of [connect] deliver nothing.  Once
    connected, an envelope arriving on the port is handed to every message
    listener registered before [connect], in registration order, and any
    other control message is ignored. *)
Theorem envelopes_are_delivered_only_after_the_acknowledgement :
  ∀ (clientId echoed : string) (w : World),
    SharedWorker_defined w = true →
    _state (this w) ≠ Connected →
    let h := length (handshakes w) in
    let p := length (message_ports w) in
    let w1 := final (connect_begin clientId w) in
    let w2 := final (port_message p (SwarmRegistered echoed) w1) in
    let w3 := final (connect_resume h w2) in
    (∀ data, (∀ x, data ≠ SwarmRegistered x) →
             port_message p data w1 = (Normal tt, w1, []))
    ∧ calls (port_message p (SwarmRegistered echoed) w1) = []
    ∧ calls (connect_resume h w2) = []
    ∧ (∀ message,
         port_message p (SwarmMessageData message) w3
         = (Normal tt, w3,
            (λ l, MessageDelivered l message) <$> messageHandlers (this w)))
    ∧ (∀ data, (∀ message, data ≠ SwarmMessageData message) →
               port_message p data w3 = (Normal tt, w3, [])).
Proof.
  intros clientId echoed w Hsup Hst h p w1 w2 w3.
  destruct (connect_acknowledged_world clientId echoed w Hsup Hst)
    as (Hcalls2 & Hcalls3 & Hp3 & Hthis3).
  fold h p w1 w2 w3 in Hcalls2, Hcalls3, Hp3, Hthis3.
  destruct (connect_begin_started clientId w Hsup Hst)
    as (_ & _ & _ & Hp & _ & _).
  fold w1 h p in Hp.
  clearbody w3 w1.
  split_and!; [|done|done| |].
  - intros data Hdata. unfold port_message. sw_run. rewrite Hp. sw_run.
    destruct data; try done. by destruct (Hdata clientId0).
  - intros message.
    rewrite (port_message_handlePortMessage _ _ _ _ Hp3) by done.
    by rewrite Hthis3.
  - intros data Hdata.
    rewrite (port_message_handlePortMessage _ _ _ _ Hp3) by done.
    destruct data; try done. by destruct (Hdata message).
Qed.

Lemma envelopes_are_delivered_only_after_the_acknowledgement_witness :
  let w := final (onMessage RelayHandleMessage (new "shell" true)) in
  let w1 := final (connect_begin "shell" w) in
  let w3 :=
    final (connect_resume 0 (final (port_message 0 (SwarmRegistered "shell") w1))) in
  calls (port_message 0 (SwarmMessageData Samples.sample_broadcast) w1) = []
  ∧ calls (port_message 0 (SwarmMessageData Samples.sample_broadcast) w3)
    = [MessageDelivered RelayHandleMessage Samples.sample_broadcast].
Proof.
  intros w w1 w3.
  destruct (envelopes_are_delivered_only_after_the_acknowledgement
              "shell" "shell" w eq_refl ltac:(discriminate))
    as (Hbefore & _ & _ & Hafter & _).
  split.
  - unfold w1. by rewrite Hbefore.
  - unfold w3, w1. by rewrite Hafter.
Defined.



(** X15: the transport's [disconnect()] never throws and tells no
    listener, in any state; it leaves the transport as a fresh one with the
    same client id, so a second [disconnect()] changes nothing and a
    [send] after it throws [NotConnected]. *)
Theorem transport_disconnect_is_idempotent :
  ∀ (message : SwarmMessage) (w : World),
    let w' := final (disconnect w) in
    completion (disconnect w) = Normal tt
    ∧ calls (disconnect w) = []
    ∧ this w'
      = {| worker := None; port := None; messageHandlers := [];
           errorHandlers := []; _state := Disconnected;
           handshakeAbort := None;
           clientId := SharedWorker.clientId (this w) |}
    ∧ disconnect w' = (Normal tt, w', [])
    ∧ send message w'
      = (Throw (SwarmRelayError "Cannot send message: not connected"
                  NotConnected None), w', []).
Proof.
  intros message w w'.
  assert (completion (disconnect w) = Normal tt
          ∧ calls (disconnect w) = []
          ∧ this w'
            = {| worker := None; port := None; messageHandlers := [];
                 errorHandlers := []; _state := Disconnected;
                 handshakeAbort := None;
                 clientId := SharedWorker.clientId (this w) |})
    as (Hc & Ho & Hthis).
  { subst w'. unfold disconnect. sw_run.
    destruct (handshakeAbort (this w)) eqn:Habort; sw_run;
      destruct (port (this w)); sw_run;
      cbv [set__state set_errorHandlers set_messageHandlers set_worker
           set_port set_handshakeAbort]; simpl; rewrite ?Habort; done. }
  clearbody w'. split_and!; try done.
  - unfold disconnect. sw_run. rewrite Hthis. sw_run.
    destruct w' as [t u d hs ps ks]. simpl in *. by subst t.
  - unfold send. sw_run. by rewrite Hthis.
Qed.
End ConnectedTransport.

Section HandshakesSettle.
Import Js Types Effects Relay SharedWorker Usage.
Implicit Types (w : World) (h : nat) (a b c : Handshake)
  (l : list Handshake).














End HandshakesSettle.

Section SharedBlobUrl.
Import Js Types Effects Relay SharedWorker Usage.
Implicit Types (w : World) (h : nat).






End SharedBlobUrl.

(** ** The BroadcastChannel transport *)

Section ChannelFacts.
Import Js Types Effects Relay BroadcastChannel.
Implicit Types (t : BroadcastChannelTransport) (os : list Observation).

Lemma channel_handleMessage_run data t :
  BroadcastChannel.handleMessage data t
  = (Normal tt, t,
     match data with
     | SwarmMessageData message =>
         if decide (Some (source message) = clientId t) then []
         else
           match if_truthy (target message) with
           | Some target =>
               if decide (Some target ≠ clientId t) then []
               else (λ l, MessageDelivered l message) <$> messageHandlers t
           | None => (λ l, MessageDelivered l message) <$> messageHandlers t
           end
     | _ => []
     end).
Proof.
  unfold BroadcastChannel.handleMessage. destruct data; try done.
  unfold mbind, JS_bind, get.
  destruct (decide (Some (source message) = clientId t)); [done|].
  destruct (if_truthy (target message)) as [x|].
  - destruct (decide (Some x ≠ clientId t)); [done|]. by rewrite for_of_emit.
  - by rewrite for_of_emit.
Qed.

Lemma channel_message_run data t :
  channel_message data t
  = match channel t with
    | Some _ => BroadcastChannel.handleMessage data t
    | None => (Normal tt, t, [])
    end.
Proof.
  unfold channel_message, mbind, JS_bind, get.
  destruct (channel t); [|done].
  rewrite channel_handleMessage_run. done.
Qed.

Lemma channel_emitError_run err t :
  BroadcastChannel.emitError err t
  = (Normal tt, t, (λ l, ErrorDelivered l err) <$> errorHandlers t).
Proof.
  unfold BroadcastChannel.emitError, mbind, JS_bind, get.
  by rewrite for_of_emit.
Qed.

Lemma opened_app os os' : opened (os ++ os') = opened os + opened os'.
Proof. unfold opened. by rewrite List.filter_app, length_app. Qed.

Lemma closed_app os os' : closed (os ++ os') = closed os + closed os'.
Proof. unfold closed. by rewrite List.filter_app, length_app. Qed.

Lemma opened_deliveries {A} (f : A → Observation) (xs : list A) :
  (∀ x, is_ChannelOpened (f x) = false) → opened (f <$> xs) = 0.
Proof.
  intros Hf. unfold opened. induction xs as [|x xs IH]; [done|].
  csimpl. by rewrite Hf.
Qed.

Lemma closed_deliveries {A} (f : A → Observation) (xs : list A) :
  (∀ x, is_ChannelClosed (f x) = false) → closed (f <$> xs) = 0.
Proof.
  intros Hf. unfold closed. induction xs as [|x xs IH]; [done|].
  csimpl. by rewrite Hf.
Qed.
End ChannelFacts.

Section ChannelInvariant.
Import Js Types Effects Relay BroadcastChannel.
Implicit Types (t : BroadcastChannelTransport) (os : list Observation).

(** What one job keeps true of the transport, and how many channels it
    opens and closes. *)
Lemma job_keeps_one_channel j t :
  (channel t = Some (channelName t) ∧ _state t = Connected
   ∨ channel t = None ∧ _state t ≠ Connected) →
  (clientId t = None ↔ _state t = Disconnected) →
  _state t ≠ Connecting →
  let t' := final (job j t) in
  let os := calls (job j t) in
  channelName t' = channelName t
  ∧ (channel t' = Some (channelName t') ∧ _state t' = Connected
     ∨ channel t' = None ∧ _state t' ≠ Connected)
  ∧ (clientId t' = None ↔ _state t' = Disconnected)
  ∧ _state t' ≠ Connecting
  ∧ opened os + held t
    = closed os + held t'.
Proof.
  intros Hch Hid Hst.
  unfold held. destruct t as [ch cid mh eh st name]. simpl in *.
  destruct j as [browser id| |message|l|l|l|l|data|]; simpl.
  - unfold connect. js_run. simpl.
    destruct (decide (st = Connected)) as [->|Hne]; simpl.
    { split_and!; try done. }
    destruct (BroadcastChannel_defined browser); simpl.
    2:{ split_and!; try done. }
    destruct Hch as [[-> ->]|[-> _]]; [done|].
    destruct (constructor_throws browser) as [e|]; simpl.
    + split_and!; try done. by right.
    + split_and!; try done. by left.
  - unfold disconnect. js_run. simpl.
    destruct Hch as [[-> ->]|[-> _]]; simpl; split_and!; try done;
      by right.
  - unfold send. js_run. simpl.
    destruct Hch as [[-> ->]|[-> Hne]]; simpl; [|by split_and!; try right].
    split_and!; try done. by left.
  - unfold onMessage. js_run. simpl. destruct ch; by split_and!.
  - unfold offMessage. js_run. simpl. destruct ch; by split_and!.
  - unfold onError. js_run. simpl. destruct ch; by split_and!.
  - unfold offError. js_run. simpl. destruct ch; by split_and!.
  - rewrite channel_message_run. simpl.
    destruct ch as [n|]; [|by split_and!].
    rewrite channel_handleMessage_run. simpl.
    split_and!; try done.
    rewrite Nat.add_cancel_r.
    destruct data; try done.
    destruct (decide (Some (source message) = cid)); [done|].
    destruct (if_truthy (target message)) as [x|];
      [destruct (decide (Some x ≠ cid)); [done|]|];
      by rewrite opened_deliveries, closed_deliveries.
  - unfold channel_messageerror. js_run. simpl.
    destruct ch as [n|]; [|by split_and!].
    rewrite channel_emitError_run. simpl.
    split_and!; try done.
    rewrite Nat.add_cancel_r.
    by rewrite opened_deliveries, closed_deliveries.
Qed.

Lemma jobs_snoc js j t :
  jobs (js ++ [j]) t
  = (final (job j (jobs js t).1), (jobs js t).2 ++ calls (job j (jobs js t).1)).
Proof. unfold jobs. by rewrite foldl_app. Qed.

(** X17: whatever is called on a BroadcastChannel transport, in whatever
    order, it holds an open channel, the one named in its options, exactly
    while its state is [Connected]; it has opened exactly one channel more
    than it has closed while it holds one, and as many otherwise, so no
    channel is ever left open behind; its client id is forgotten exactly
    in state [Disconnected]; and no call leaves it in state
    [Connecting]. *)
Theorem channel_transport_holds_at_most_one_channel :
  ∀ (js : list Job) (name : option string),
    let t := (jobs js (new name)).1 in
    let os := (jobs js (new name)).2 in
    channelName t = default "swarm-relay" name
    ∧ (channel t = Some (channelName t) ∧ _state t = Connected
       ∨ channel t = None ∧ _state t ≠ Connected)
    ∧ (clientId t = None ↔ _state t = Disconnected)
    ∧ _state t ≠ Connecting
    ∧ opened os = closed os + held t.
Proof.
  intros js name. induction js as [|j js IH] using rev_ind.
  - simpl. split_and!; try done. by right.
  - rewrite jobs_snoc. cbv zeta in IH |- *. simpl.
    destruct IH as (Hname & Hch & Hid & Hst & Hcount).
    destruct (job_keeps_one_channel j _ Hch Hid Hst)
      as (Hname' & Hch' & Hid' & Hst' & Hcount').
    split_and!; try done.
    + by rewrite Hname'.
    + rewrite opened_app, closed_app. unfold held in *. lia.
Qed.
End ChannelInvariant.

Section HubAndChannel.
Import Js Types Effects Relay.
Implicit Types (hub : Worker.Hub) (t : BroadcastChannel.BroadcastChannelTransport)
  (message : SwarmMessage).

Lemma elem_of_forwardBroadcast message (entries : list (string * Worker.MessagePort))
    (post : Worker.Post) :
  post ∈ flat_map (Worker.forwardBroadcast message) entries
  ↔ ∃ id, (id, post.1) ∈ entries ∧ id ≠ source message
          ∧ post.2 = SwarmMessageData message.
Proof.
  rewrite list_elem_of_In, in_flat_map. split.
  - intros ([id p] & Hin%list_elem_of_In & Hpost%list_elem_of_In).
    simpl in Hpost. destruct (decide (id ≠ source message)) as [Hne|];
      [|by apply elem_of_nil in Hpost].
    apply list_elem_of_singleton in Hpost as ->. by exists id.
  - intros (id & Hin & Hne & Hdata). exists (id, post.1). split.
    + by apply list_elem_of_In.
    + apply list_elem_of_In. simpl. rewrite decide_True by done.
      destruct post as [p d]. simpl in *. subst d. apply list_elem_of_here.
Qed.

Lemma same_port_same_id (entries : list (string * Worker.MessagePort)) id id' p :
  NoDup entries.*2 → (id, p) ∈ entries → (id', p) ∈ entries → id = id'.
Proof.
  induction entries as [|[k v] entries IH]; simpl.
  - intros _ Hin. by apply elem_of_nil in Hin.
  - intros [Hnotin Hnd]%NoDup_cons [Heq|Hin]%elem_of_cons
      [Heq'|Hin']%elem_of_cons.
    + congruence.
    + injection Heq as -> ->. exfalso. apply Hnotin.
      apply list_elem_of_fmap. by exists (id', v).
    + injection Heq' as -> ->. exfalso. apply Hnotin.
      apply list_elem_of_fmap. by exists (id, v).
    + by apply IH.
Qed.

(** X18: the hub and the BroadcastChannel transport route alike.  Take a
    hub whose registry names every port once, a client registered there as
    [id] on [port], and a BroadcastChannel transport connected as the same
    [id].  For an envelope that is not addressed to its own sender, the hub
    forwards it to [port] exactly when the transport hands it to all its
    listeners; otherwise the transport hands it to none. *)
Theorem hub_and_channel_route_alike :
  ∀ hub (sender port : Worker.MessagePort) (id name : string) message t,
    NoDup (map_keys (Worker.ports hub)) →
    NoDup (Worker.ports hub).*2 →
    (id, port) ∈ Worker.ports hub →
    BroadcastChannel.channel t = Some name →
    BroadcastChannel.clientId t = Some id →
    if_truthy (target message) ≠ Some (source message) →
    let posts := (Worker.handleMessage sender (SwarmMessageData message) hub).2 in
    let heard :=
      calls (BroadcastChannel.channel_message (SwarmMessageData message) t) in
    ((port, SwarmMessageData message) ∈ posts
     → heard = (λ l, BroadcastChannel.MessageDelivered l message)
                 <$> BroadcastChannel.messageHandlers t)
    ∧ ((port, SwarmMessageData message) ∉ posts → heard = []).
Proof.
  intros hub sender port id name message t Hkeys Hports Hin Hch Hid Hself
    posts heard.
  subst posts heard. rewrite channel_message_run, Hch.
  rewrite channel_handleMessage_run, Hid. simpl.
  destruct (if_truthy (target message)) as [x|] eqn:Htarget.
  - assert (x ≠ source message) as Hx by congruence.
    destruct (map_get x (Worker.ports hub)) as [targetPort|] eqn:Hget; simpl.
    + apply map_get_Some_elem_of in Hget as Hxin.
      destruct (decide (x = id)) as [->|Hne].
      * rewrite (elem_of_map_get_NoDup _ _ _ Hkeys Hin) in Hget.
        injection Hget as <-.
        rewrite decide_False by congruence.
        rewrite decide_False by (by intros []).
        split; [done|]. intros []. apply list_elem_of_here.
      * split.
        -- intros Hpost%list_elem_of_singleton. injection Hpost as ->.
           destruct Hne. by eapply same_port_same_id.
        -- intros _. destruct (decide (Some (source message) = Some id));
             [done|]. by rewrite decide_True by congruence.
    + split; [by intros ?%elem_of_nil|]. intros _.
      destruct (decide (Some (source message) = Some id)); [done|].
      rewrite decide_True; [done|]. intros [= ->].
      by rewrite (elem_of_map_get_NoDup _ _ _ Hkeys Hin) in Hget.
  - simpl. rewrite elem_of_forwardBroadcast. simpl. split.
    + intros (id' & Hin' & Hne & _).
      rewrite (same_port_same_id _ _ _ _ Hports Hin Hin').
      by rewrite decide_False by congruence.
    + intros Hnot. destruct (decide (Some (source message) = Some id));
        [done|]. destruct Hnot. exists id. split_and!; [done| |done]. congruence.
Qed.

Lemma hub_and_channel_route_alike_witness :
  let t :=
    final (BroadcastChannel.connect
             {| BroadcastChannel.BroadcastChannel_defined := true;
                BroadcastChannel.constructor_throws := None |} "shell"
             (final (BroadcastChannel.onMessage RelayHandleMessage
                       (BroadcastChannel.new None)))) in
  calls (BroadcastChannel.channel_message
           (SwarmMessageData Samples.sample_broadcast) t)
  = [BroadcastChannel.MessageDelivered RelayHandleMessage
       Samples.sample_broadcast].
Proof.
  intros t.
  apply (hub_and_channel_route_alike Samples.shell_and_cart 1 0 "shell"
           "swarm-relay" Samples.sample_broadcast t).
  - by_compute.
  - by_compute.
  - by_compute.
  - reflexivity.
  - reflexivity.
  - discriminate.
  - vm_compute. apply list_elem_of_here.
Defined.

(** X19: the two transports differ on an envelope a client addresses to
    itself: the hub posts it back to the sender's own port, the
    BroadcastChannel transport of that client drops it. *)
Theorem self_addressed_envelope_returns_through_the_hub_only :
  ∀ hub (sender port : Worker.MessagePort) (id name : string) message t,
    NoDup (map_keys (Worker.ports hub)) →
    (id, port) ∈ Worker.ports hub →
    BroadcastChannel.channel t = Some name →
    BroadcastChannel.clientId t = Some id →
    source message = id →
    if_truthy (target message) = Some id →
    Worker.handleMessage sender (SwarmMessageData message) hub
    = (hub, [(port, SwarmMessageData message)])
    ∧ BroadcastChannel.channel_message (SwarmMessageData message) t
      = (Normal tt, t, []).
Proof.
  intros hub sender port id name message t Hkeys Hin Hch Hid Hsource Htarget.
  split.
  - simpl. rewrite Htarget.
    by rewrite (elem_of_map_get_NoDup _ _ _ Hkeys Hin).
  - rewrite channel_message_run, Hch, channel_handleMessage_run, Hid, Hsource.
    by rewrite decide_True.
Qed.

Lemma self_addressed_envelope_returns_through_the_hub_only_witness :
  let t :=
    final (BroadcastChannel.connect
             {| BroadcastChannel.BroadcastChannel_defined := true;
                BroadcastChannel.constructor_throws := None |} "shell"
             (final (BroadcastChannel.onMessage RelayHandleMessage
                       (BroadcastChannel.new None)))) in
  Worker.handleMessage 0 (SwarmMessageData (Samples.sample_targeted "shell"))
    Samples.shell_and_cart
  = (Samples.shell_and_cart,
     [(0, SwarmMessageData (Samples.sample_targeted "shell"))])
  ∧ BroadcastChannel.channel_message
      (SwarmMessageData (Samples.sample_targeted "shell")) t
    = (Normal tt, t, []).
Proof.
  intros t.
  apply (self_addressed_envelope_returns_through_the_hub_only
           Samples.shell_and_cart 0 0 "shell" "swarm-relay"
           (Samples.sample_targeted "shell") t).
  - by_compute.
  - by_compute.
  - reflexivity.
  - reflexivity.
  - reflexivity.
  - reflexivity.
Defined.
End HubAndChannel.

Section ChannelLifecycle.
Import Js Types Effects Relay BroadcastChannel.
Implicit Types (t : BroadcastChannelTransport).


End ChannelLifecycle.
